(** * Scanarr: the tracker search protocol of [scanarr/main.py]

    A shallow embedding of [TrackerSearcher] (the search call, the
    descriptor download, the retry loop, the batch loop) and of the line of
    [main] that drives it, together with the properties of the verification
    engine.

    Conventions of the model.
    - A Python [str] is represented by its UTF-8 encoding, a [string] of
      bytes.  Substring containment and percent-encoding act on that
      encoding exactly as they do on the text.  [str.lower] is computed
      for ASCII text; for any other text it is what the Unicode character
      database says, which is a parameter of the development ([Unicode]):
      every statement about lower-casing holds for all case mappings.
    - [self.delay] is a Python number; it is modelled as an exact rational
      ([Q]), so rounding of very large floating point values is outside the
      model.
    - The network is an oracle: the n-th search request and the n-th
      descriptor request of a run each receive some reply.  The general
      statements quantify over all oracles.
    - Console output, sleeps and requests are recorded, in order, in a
      trace. *)

From Stdlib Require Import List String Ascii Bool Arith ZArith NArith QArith Qminmax Lia.
Import ListNotations.

Set Warnings "-register-all".

Local Open Scope list_scope.
Local Open Scope string_scope.

(** ** Python strings *)

(** On text that is not pure ASCII, [str.lower] applies the case mappings
    of the Unicode character database, some of which depend on the context
    of a character (the final sigma) or change the length of the text.
    These tables are not part of this development: they are a parameter, a
    function from text to text. *)
Class Unicode : Type := { lower_unicode : string -> string }.

Module PyStr.

(** [c.lower()] for one ASCII character. *)
Definition lower_ascii (c : ascii) : ascii :=
  let n := N_of_ascii c in
  if ((65 <=? n) && (n <=? 90))%N then ascii_of_N (n + 32) else c.

(** [s.isascii()]: every byte is below 128. *)
Fixpoint is_ascii (s : string) : bool :=
  match s with
  | EmptyString => true
  | String c t => (N_of_ascii c <? 128)%N && is_ascii t
  end.

(** [s.lower()] for ASCII text: letter by letter. *)
Fixpoint lower_bytes (s : string) : string :=
  match s with
  | EmptyString => EmptyString
  | String c t => String (lower_ascii c) (lower_bytes t)
  end.

(** [s.lower()] *)
Definition lower {unicode : Unicode} (s : string) : string :=
  if is_ascii s then lower_bytes s else lower_unicode s.

(** [hay.startswith(needle)] *)
Fixpoint startswith (needle hay : string) : bool :=
  match needle, hay with
  | EmptyString, _ => true
  | String _ _, EmptyString => false
  | String a n', String b h' => Ascii.eqb a b && startswith n' h'
  end.

(** [needle in hay] *)
Fixpoint contains (needle hay : string) : bool :=
  startswith needle hay
  || match hay with
     | EmptyString => false
     | String _ t => contains needle t
     end.

(** [s.replace(a, b)] for single characters [a] and [b]. *)
Fixpoint replace_char (a b : ascii) (s : string) : string :=
  match s with
  | EmptyString => EmptyString
  | String c t => String (if Ascii.eqb c a then b else c) (replace_char a b t)
  end.

(** [s[:n]] *)
Fixpoint take (n : nat) (s : string) : string :=
  match n, s with
  | O, _ => EmptyString
  | S _, EmptyString => EmptyString
  | S n', String c t => String c (take n' t)
  end.

(** Truthiness of a string: [bool(s)]. *)
Definition truthy (s : string) : bool :=
  match s with EmptyString => false | String _ _ => true end.

(** The mathematical notion the containment test decides. *)
Definition Substring (needle hay : string) : Prop :=
  exists pre post, hay = pre ++ needle ++ post.


End PyStr.

(** ** URL encoding: [urllib.parse.quote_plus] and the encoding [requests]
    applies to [params] *)

Module Url.

Definition in_range (lo hi : N) (c : ascii) : bool :=
  let n := N_of_ascii c in ((lo <=? n) && (n <=? hi))%N.

(** The characters [quote] never escapes: letters, digits and [_.-~]. *)
Definition always_safe (c : ascii) : bool :=
  in_range 65 90 c || in_range 97 122 c || in_range 48 57 c
  || PyStr.contains (String c EmptyString) "_.-~".

Definition hex_digit (n : N) : ascii :=
  if (n <? 10)%N then ascii_of_N (48 + n) else ascii_of_N (55 + n).

(** [%XX], upper-case hexadecimal. *)
Definition percent (c : ascii) : string :=
  let n := N_of_ascii c in
  String "%" (String (hex_digit (n / 16)) (String (hex_digit (n mod 16)) EmptyString)).

(** [quote(s, safe)]: every byte outside the safe sets is escaped. *)
Fixpoint quote (safe : string) (s : string) : string :=
  match s with
  | EmptyString => EmptyString
  | String c t =>
      (if always_safe c || PyStr.contains (String c EmptyString) safe
       then String c EmptyString else percent c) ++ quote safe t
  end.

(** [quote_plus(s)]: as [quote], with each space turned into [+]. *)
Definition quote_plus (s : string) : string :=
  if PyStr.contains " " s
  then PyStr.replace_char " " "+" (quote " " s)
  else quote "" s.

(** [urlencode(params)], which [requests] applies to the [params] of a
    request: keys and values are each passed through [quote_plus]. *)
Fixpoint urlencode (params : list (string * string)) : string :=
  match params with
  | [] => ""
  | [(k, v)] => quote_plus k ++ "=" ++ quote_plus v
  | (k, v) :: rest => quote_plus k ++ "=" ++ quote_plus v ++ "&" ++ urlencode rest
  end.

(** The inverse direction, as a server applies it to one query value:
    [+] is a space and [%XX] is the byte [XX]. *)
Definition hex_value (c : ascii) : option N :=
  let n := N_of_ascii c in
  if in_range 48 57 c then Some (n - 48)%N
  else if in_range 65 70 c then Some (n - 55)%N
  else if in_range 97 102 c then Some (n - 87)%N
  else None.

Fixpoint unquote_plus (s : string) : string :=
  match s with
  | EmptyString => EmptyString
  | String c t =>
      if Ascii.eqb c "+" then String " " (unquote_plus t)
      else if Ascii.eqb c "%" then
        match t with
        | String h (String l t') =>
            match hex_value h, hex_value l with
            | Some a, Some b => String (ascii_of_N (16 * a + b)) (unquote_plus t')
            | _, _ => String c (unquote_plus t)
            end
        | _ => String c (unquote_plus t)
        end
      else String c (unquote_plus t)
  end.

End Url.

(** ** Exceptions and the values a Python expression can produce *)

Inductive exn : Type :=
| Timeout | ConnectionError | MissingSchema
| HTTPError (status : Z)
| JSONDecodeError | BencodeDecodeError | UnicodeDecodeError
| TypeError | AttributeError | KeyError.

(** A pure expression either has a value or raises. *)
Inductive except (A : Type) : Type :=
| Value (a : A)
| Raised (e : exn).
Arguments Value {A} a.
Arguments Raised {A} e.

Definition except_bind {A B : Type} (m : except A) (f : A -> except B) : except B :=
  match m with
  | Value a => f a
  | Raised e => Raised e
  end.

Declare Scope except_scope.
Delimit Scope except_scope with except.
Notation "x <~ m ; k" := (except_bind m (fun x => k))
  (at level 61, m at next level, right associativity) : except_scope.

(** [bytes.decode('utf-8')]: strict validation of the encoding. *)
Module Utf8.

Definition cont (c : ascii) : bool := Url.in_range 128 191 c.

Definition second_of_3 (a b : ascii) : bool :=
  if Url.in_range 224 224 a then Url.in_range 160 191 b
  else if Url.in_range 237 237 a then Url.in_range 128 159 b
  else cont b.

Definition second_of_4 (a b : ascii) : bool :=
  if Url.in_range 240 240 a then Url.in_range 144 191 b
  else if Url.in_range 244 244 a then Url.in_range 128 143 b
  else cont b.

Fixpoint valid (s : string) : bool :=
  match s with
  | EmptyString => true
  | String a t =>
      if Url.in_range 0 127 a then valid t
      else if Url.in_range 194 223 a then
        match t with
        | String b t1 => cont b && valid t1
        | _ => false
        end
      else if Url.in_range 224 239 a then
        match t with
        | String b (String c t2) => second_of_3 a b && cont c && valid t2
        | _ => false
        end
      else if Url.in_range 240 244 a then
        match t with
        | String b (String c (String d t3)) =>
            second_of_4 a b && cont c && cont d && valid t3
        | _ => false
        end
      else false
  end.

Definition decode (s : string) : except string :=
  if valid s then Value s else Raised UnicodeDecodeError.

End Utf8.

(** ** Content descriptors: the value [bencodepy.decode] returns *)

Module Bencode.

Inductive value : Type :=
| Int (z : Z)
| Bytes (s : string)
| List (l : list value)
| Dict (d : list (string * value)).

Definition lookup (key : string) (d : list (string * value)) : option value :=
  match find (fun kv => String.eqb (fst kv) key) d with
  | Some kv => Some (snd kv)
  | None => None
  end.

(** [key in v], for a bytes key. *)
Definition py_in (key : string) (v : value) : except bool :=
  match v with
  | Dict d => Value (match lookup key d with Some _ => true | None => false end)
  | List l =>
      Value (existsb (fun x => match x with Bytes s => String.eqb s key | _ => false end) l)
  | Bytes s => Value (PyStr.contains key s)
  | Int _ => Raised TypeError
  end.

(** [v[key]], for a bytes key. *)
Definition py_getitem (v : value) (key : string) : except value :=
  match v with
  | Dict d =>
      match lookup key d with
      | Some x => Value x
      | None => Raised KeyError
      end
  | _ => Raised TypeError
  end.

(** [v.decode('utf-8')] *)
Definition py_decode (v : value) : except string :=
  match v with
  | Bytes s => Utf8.decode s
  | _ => Raised AttributeError
  end.

End Bencode.

(** ** Replies of the backend *)

(** A key of a JSON object read with [.get(key, default)]: absent, [null],
    or a value. *)
Inductive jfield (A : Type) : Type :=
| Missing
| Null
| Present (a : A).
Arguments Missing {A}.
Arguments Null {A}.
Arguments Present {A} a.

(** One element of [Indexers]; [Error] as [indexer.get('Error')] reads it. *)
Record indexer : Type := { Error : option string }.

(** One element of [Results], as [result.get('Title')] and
    [result.get('Link')] read it. *)
Record search_result : Type := { Title : option string; Link : option string }.

Record search_body : Type := {
  Indexers : jfield (list indexer);
  Results : jfield (list search_result)
}.

(** What [session.get] and [response.json()] deliver for a search: the call
    raises (time-out, connection error), or a response arrives with a
    status and a body that is JSON of the expected shape or is not. *)
Inductive search_reply : Type :=
| SearchRaised (e : exn)
| SearchResponse (status : Z) (body : option search_body).

(** The same for a descriptor download; [content] is what
    [bencodepy.decode] makes of the body, when it can. *)
Inductive fetch_reply : Type :=
| FetchRaised (e : exn)
| FetchResponse (status : Z) (content : option Bencode.value).

(** [response.raise_for_status()] raises on 4xx and 5xx. *)
Definition raise_for_status (status : Z) : except unit :=
  if ((400 <=? status) && (status <? 600))%Z then Raised (HTTPError status) else Value tt.

Record backend : Type := {
  search_reply_at : nat -> search_reply;
  fetch_reply_at : nat -> fetch_reply
}.

(** ** The run: state, trace and the monad of effects *)

Module Scanarr.

(** What [console.print] is called with. *)
Inductive message : Type :=
| MsgTooManyRequests (query : string)
| MsgUnknownError (query : string)
| MsgTorrentError (torrent_url : option string) (e : exn)
| MsgRetry (retry_delay : Q) (attempt : Z) (max_retries : Z)
| MsgNoRetriesLeft
| MsgRetryAdvice
| MsgTooManyResults (n : nat) (query : string)
| MsgDelayIncreased
| MsgSearchResultsFor (query : string)
| MsgFoundMatching
| MsgNoMatchFound
| MsgFoundResults (n : nat)
| MsgResultTitle (title : option string)
| MsgNoResultsFound
| MsgBlank.

Inductive event : Type :=
| EGet (url : string) (params : list (string * string)) (timeout : Z)
| EFetch (torrent_url : string) (timeout : Z)
| ESleep (seconds : Q)
| EPrint (m : message)
| EProgress (i total : nat) (text : string)
| EAdvance.

(** [delay] is [self.delay]; [nsearch] and [nfetch] count the requests
    sent so far; [trace] lists the events, oldest first. *)
Record state : Type := {
  delay : Q;
  nsearch : nat;
  nfetch : nat;
  trace : list event
}.

(** A call returns, ends the process ([sys.exit]), or raises. *)
Inductive outcome (A : Type) : Type :=
| Ret (a : A)
| Exit (code : Z)
| Raise (e : exn).
Arguments Ret {A} a.
Arguments Exit {A} code.
Arguments Raise {A} e.

Definition M (A : Type) : Type := state -> outcome A * state.

Definition ret {A : Type} (a : A) : M A := fun st => (Ret a, st).

Definition bind {A B : Type} (m : M A) (f : A -> M B) : M B :=
  fun st =>
    match m st with
    | (Ret a, st') => f a st'
    | (Exit c, st') => (Exit c, st')
    | (Raise e, st') => (Raise e, st')
    end.

Declare Scope scanarr_scope.
Delimit Scope scanarr_scope with scanarr.
Notation "x <- m ;; k" := (bind m (fun x => k))
  (at level 61, m at next level, right associativity) : scanarr_scope.
Notation "m ;; k" := (bind m (fun _ => k))
  (at level 61, right associativity) : scanarr_scope.
Local Open Scope scanarr_scope.

Definition sys_exit {A : Type} (code : Z) : M A := fun st => (Exit code, st).

Definition raise {A : Type} (e : exn) : M A := fun st => (Raise e, st).

Definition lift {A : Type} (x : except A) : M A :=
  match x with
  | Value a => ret a
  | Raised e => raise e
  end.

(** [try: m except Exception as e: h e].  [sys.exit] raises [SystemExit],
    which is not an [Exception] and passes through. *)
Definition try_except {A : Type} (m : M A) (h : exn -> M A) : M A :=
  fun st =>
    match m st with
    | (Raise e, st') => h e st'
    | r => r
    end.

Definition emit (e : event) : M unit :=
  fun st =>
    (Ret tt, {| delay := delay st; nsearch := nsearch st; nfetch := nfetch st;
                trace := (trace st ++ [e])%list |}).

Definition print (m : message) : M unit := emit (EPrint m).

Definition sleep (seconds : Q) : M unit := emit (ESleep seconds).

Fixpoint prints (ms : list message) : M unit :=
  match ms with
  | [] => ret tt
  | m :: rest => print m ;; prints rest
  end.

Definition get_delay : M Q := fun st => (Ret (delay st), st).

Definition set_delay (d : Q) : M unit :=
  fun st =>
    (Ret tt, {| delay := d; nsearch := nsearch st; nfetch := nfetch st;
                trace := trace st |}).

(** [self.session.get(url, params=params, timeout=30)] of a search. *)
Definition session_get_search (w : backend) (url : string)
    (params : list (string * string)) (timeout : Z) : M search_reply :=
  fun st =>
    (Ret (search_reply_at w (nsearch st)),
     {| delay := delay st; nsearch := S (nsearch st); nfetch := nfetch st;
        trace := (trace st ++ [EGet url params timeout])%list |}).

(** [self.session.get(torrent_url, timeout=30)].  Without a URL
    ([Link] absent or [null]) [requests] raises before sending
    anything. *)
Definition session_get_torrent (w : backend) (torrent_url : option string)
    (timeout : Z) : M fetch_reply :=
  match torrent_url with
  | None => raise MissingSchema
  | Some u =>
      fun st =>
        (Ret (fetch_reply_at w (nfetch st)),
         {| delay := delay st; nsearch := nsearch st; nfetch := S (nfetch st);
            trace := (trace st ++ [EFetch u timeout])%list |})
  end.

(** The constant fields of [self]. *)
Record searcher : Type := {
  api_url : string;
  api_key : string;
  tracker : string;
  max_retries : Z
}.

(** The request line [requests] sends for a search: the [params] are
    URL-encoded once more when the URL is built. *)
Definition wire_url (url : string) (params : list (string * string)) : string :=
  url ++ "?" ++ Url.urlencode params.

(** [range(n)] *)
Definition range (n : Z) : list Z := map Z.of_nat (seq 0 (Z.to_nat n)).

(** The [for indexer in indexers] loop of [search_tracker]: the first
    [Error] that is truthy, if any. *)
Fixpoint first_error (indexers : list indexer) : option string :=
  match indexers with
  | [] => None
  | ix :: rest =>
      match Error ix with
      | Some error => if PyStr.truthy error then Some error else first_error rest
      | None => first_error rest
      end
  end.

(** The indexer reports no error: [Error] is absent, [null] or empty. *)
Definition no_error (ix : indexer) : Prop := Error ix = None \/ Error ix = Some "".

Definition search_params (self : searcher) (query : string) : list (string * string) :=
  let encoded_query := Url.quote_plus query in
  let encoded_tracker := Url.quote_plus (tracker self) in
  [("apikey", api_key self); ("Query", encoded_query); ("Tracker[]", encoded_tracker)].

Definition search_tracker (self : searcher) (w : backend) (query : string)
  : M (option (list search_result)) :=
  let url := api_url self ++ "/api/v2.0/indexers/all/results" in
  let params := search_params self query in
  reply <- session_get_search w url params 30 ;;
  match reply with
  | SearchRaised e => raise e
  | SearchResponse status body =>
      lift (raise_for_status status) ;;
      json_response <- lift (match body with
                             | Some js => Value js
                             | None => Raised JSONDecodeError
                             end) ;;
      indexers <- lift (match Indexers json_response with
                        | Missing => Value []
                        | Null => Raised TypeError
                        | Present l => Value l
                        end) ;;
      match first_error indexers with
      | Some error =>
          print (if PyStr.contains "TooManyRequests" error
                 then MsgTooManyRequests query
                 else MsgUnknownError query) ;;
          ret None
      | None =>
          ret (match Results json_response with
               | Missing => Some []
               | Null => None
               | Present l => Some l
               end)
      end
  end.

(** The name at [info.name], or nothing when the path is absent. *)
Definition info_name (torrent_data : Bencode.value) : except (option string) :=
  (has_info <~ Bencode.py_in "info" torrent_data ;
   if has_info : bool then
     info <~ Bencode.py_getitem torrent_data "info" ;
     has_name <~ Bencode.py_in "name" info ;
     if has_name : bool then
       info' <~ Bencode.py_getitem torrent_data "info" ;
       raw <~ Bencode.py_getitem info' "name" ;
       name <~ Bencode.py_decode raw ;
       Value (Some name)
     else Value None
   else Value None)%except.

Definition get_torrent_name (w : backend) (torrent_url : option string) : M string :=
  try_except
    (reply <- session_get_torrent w torrent_url 30 ;;
     match reply with
     | FetchRaised e => raise e
     | FetchResponse status content =>
         lift (raise_for_status status) ;;
         torrent_data <- lift (match content with
                               | Some v => Value v
                               | None => Raised BencodeDecodeError
                               end) ;;
         found <- lift (info_name torrent_data) ;;
         match found with
         | Some name => ret name
         | None => ret ""
         end
     end)
    (fun e => print (MsgTorrentError torrent_url e) ;; ret "").

Definition matches_query {unicode : Unicode} (torrent_name query : string) : bool :=
  PyStr.contains (PyStr.lower query) (PyStr.lower torrent_name).

(** The retry loop of [search_and_verify], over the values [attempt]
    still has to take; it yields [raw_results] and [had_errors]. *)
Fixpoint retry_loop (self : searcher) (w : backend) (query : string)
    (attempts : list Z) (had_errors : bool)
  : M (option (list search_result) * bool) :=
  match attempts with
  | [] => ret (None, had_errors)
  | attempt :: rest =>
      raw_results <- search_tracker self w query ;;
      match raw_results with
      | Some rs => ret (Some rs, had_errors)
      | None =>
          d <- get_delay ;;
          let retry_delay := (Qmax d 4 * inject_Z (attempt + 1))%Q in
          print (MsgRetry retry_delay (attempt + 1) (max_retries self)) ;;
          sleep retry_delay ;;
          retry_loop self w query rest true
      end
  end.

(** The loop over [raw_results]; it yields [results] and [found_match]. *)
Fixpoint results_loop {unicode : Unicode} (w : backend) (query : string) (raw_results : list search_result)
    (results : list (option string)) (found_match : bool)
  : M (list (option string) * bool) :=
  match raw_results with
  | [] => ret (results, found_match)
  | result :: rest =>
      let original_title := Title result in
      let link := Link result in
      let results := (results ++ [original_title])%list in
      torrent_name <- get_torrent_name w link ;;
      let found_match :=
        if PyStr.truthy torrent_name && matches_query torrent_name query
        then true else found_match in
      results_loop w query rest results found_match
  end.

(** What the verbose branch prints. *)
Definition verbose_report (query : string) (results : list (option string))
    (found_match : bool) : list message :=
  let results_amount := List.length results in
  ([MsgSearchResultsFor query]
   ++ (if (0 <? results_amount)%nat
       then [if found_match then MsgFoundMatching else MsgNoMatchFound]
            ++ [MsgFoundResults results_amount]
            ++ map MsgResultTitle results
       else [MsgNoResultsFound])
   ++ [MsgBlank])%list.

Definition search_and_verify {unicode : Unicode} (self : searcher) (w : backend) (query : string)
    (verbose : bool) : M bool :=
  looped <- retry_loop self w query (range (max_retries self)) false ;;
  let '(raw_results, had_errors) := looped in
  match raw_results with
  | None =>
      print MsgNoRetriesLeft ;;
      print MsgRetryAdvice ;;
      sys_exit 1
  | Some raw_results =>
      if (5 <? List.length raw_results)%nat then
        print (MsgTooManyResults (List.length raw_results) query) ;;
        sys_exit 1
      else
        (if had_errors : bool then
           d <- get_delay ;;
           set_delay (d + 1)%Q ;;
           print MsgDelayIncreased
         else ret tt) ;;
        checked <- results_loop w query raw_results [] false ;;
        let '(results, found_match) := checked in
        (if verbose : bool then prints (verbose_report query results found_match)
         else ret tt) ;;
        ret found_match
  end.

(** [self.delay > 0] *)
Definition positive (d : Q) : bool := negb (Qle_bool d 0).

(** The loop of [search_and_verify_all]; [i] is the 1-based index of the
    next item and [total] is [len(query_items)]. *)
Fixpoint verify_all_loop {unicode : Unicode} (self : searcher) (w : backend) (verbose : bool)
    (total i : nat) (items : list string) (found : list string) : M (list string) :=
  match items with
  | [] => ret found
  | item :: rest =>
      d <- get_delay ;;
      (if (1 <? i)%nat && positive d then sleep d else ret tt) ;;
      emit (EProgress i total (PyStr.take 50 item)) ;;
      matched <- search_and_verify self w item verbose ;;
      let found := if matched : bool then (found ++ [item])%list else found in
      emit EAdvance ;;
      verify_all_loop self w verbose total (S i) rest found
  end.

Definition search_and_verify_all {unicode : Unicode} (self : searcher) (w : backend)
    (query_items : list string) (verbose : bool) : M (list string) :=
  verify_all_loop self w verbose (List.length query_items) 1 query_items [].

(** [item in found] *)
Definition member (item : string) (found : list string) : bool :=
  existsb (String.eqb item) found.

(** Line 504 of [main]:
    [[item for item in items if item not in searcher.search_and_verify_all(items, verbose)]].
    The condition of the comprehension is evaluated for each [item]. *)
Fixpoint not_found_loop {unicode : Unicode} (self : searcher) (w : backend) (verbose : bool)
    (items remaining : list string) (not_found : list string) : M (list string) :=
  match remaining with
  | [] => ret not_found
  | item :: rest =>
      found <- search_and_verify_all self w items verbose ;;
      let not_found := if member item found then not_found
                       else (not_found ++ [item])%list in
      not_found_loop self w verbose items rest not_found
  end.

Definition main_search {unicode : Unicode} (self : searcher) (w : backend) (items : list string)
    (verbose : bool) : M (list string) :=
  not_found_loop self w verbose items items [].

(** [TrackerSearcher(api_url, api_key, tracker, delay)], as [main]
    creates it: [max_retries] takes its default, 10. *)
Definition make_searcher (url key trk : string) : searcher :=
  {| api_url := url; api_key := key; tracker := trk; max_retries := 10 |}.

Definition initial_state (d : Q) : state :=
  {| delay := d; nsearch := 0; nfetch := 0; trace := [] |}.

(** *** Observations on a run, used to state its properties *)

(** The descriptor URLs requested, in order. *)
Definition fetches (t : list event) : list string :=
  flat_map (fun e => match e with EFetch u _ => [u] | _ => [] end) t.

(** The durations slept, in order. *)
Definition sleeps (t : list event) : list Q :=
  flat_map (fun e => match e with ESleep s => [s] | _ => [] end) t.

(** The search requests sent, in order: URL and [params]. *)
Definition gets (t : list event) : list (string * list (string * string)) :=
  flat_map (fun e => match e with EGet u ps _ => [(u, ps)] | _ => [] end) t.

(** The value passed for [key] in [params]. *)
Definition param (key : string) (params : list (string * string)) : option string :=
  match find (fun kv => String.eqb (fst kv) key) params with
  | Some kv => Some (snd kv)
  | None => None
  end.

(** A backend that gives the same replies to every request. *)
Definition constant_backend (r : search_reply) (f : fetch_reply) : backend :=
  {| search_reply_at := fun _ => r; fetch_reply_at := fun _ => f |}.

(** What [search_tracker] makes of a reply: its outcome, and what it
    prints on the way. *)
Definition search_outcome (self : searcher) (query : string) (r : search_reply)
  : outcome (option (list search_result)) :=
  fst (search_tracker self (constant_backend r (FetchRaised Timeout)) query
         (initial_state 0)).

Definition search_prints (self : searcher) (query : string) (r : search_reply)
  : list event :=
  tl (trace (snd (search_tracker self (constant_backend r (FetchRaised Timeout)) query
                    (initial_state 0)))).

(** The n-th search request of the run is answered with a failure that
    [search_tracker] reports by returning [None]. *)
Definition attempt_fails (self : searcher) (w : backend) (query : string) (n : nat) : Prop :=
  search_outcome self query (search_reply_at w n) = Ret None.

(** The n-th search request of the run succeeds with the results [rs]. *)
Definition attempt_succeeds (self : searcher) (w : backend) (query : string) (n : nat)
    (rs : list search_result) : Prop :=
  search_outcome self query (search_reply_at w n) = Ret (Some rs).

(** A state in which [n] descriptor requests were sent before. *)
Definition probe (n : nat) : state :=
  {| delay := 0; nsearch := 0; nfetch := n; trace := [] |}.

(** What [get_torrent_name] returns for [link] in such a state. *)
Definition torrent_name_at (w : backend) (n : nat) (link : option string) : string :=
  match fst (get_torrent_name w link (probe n)) with
  | Ret name => name
  | _ => ""
  end.

Definition after_link (n : nat) (link : option string) : nat :=
  match link with Some _ => S n | None => n end.

(** The names extracted for the candidates [raw_results], in order, when
    [n] descriptor requests were sent before. *)
Fixpoint extracted_names (w : backend) (n : nat) (raw_results : list search_result)
  : list string :=
  match raw_results with
  | [] => []
  | r :: rest =>
      torrent_name_at w n (Link r) :: extracted_names w (after_link n (Link r)) rest
  end.

(** The links of the candidates that have one. *)
Definition links (raw_results : list search_result) : list string :=
  flat_map (fun r => match Link r with Some u => [u] | None => [] end) raw_results.

Definition option_list {A : Type} (o : option A) : list A :=
  match o with Some a => [a] | None => [] end.

(** [st'] is reached from [st] by sending [searched] search requests,
    requesting the descriptors [fetched] and sleeping [slept]. *)
Definition effects (st st' : state) (searched : nat) (fetched : list string)
    (slept : list Q) : Prop :=
  nsearch st' = (nsearch st + searched)%nat
  /\ nfetch st' = (nfetch st + List.length fetched)%nat
  /\ fetches (trace st') = (fetches (trace st) ++ fetched)%list
  /\ sleeps (trace st') = (sleeps (trace st) ++ slept)%list.

Definition search_url (self : searcher) : string :=
  api_url self ++ "/api/v2.0/indexers/all/results".

(** The test of the loop over the candidates, for one extracted name. *)
Definition candidate_matches {unicode : Unicode} (query name : string) : bool :=
  PyStr.truthy name && matches_query name query.

(** The wait after the failed attempt with loop index [attempt]. *)
Definition retry_wait (d : Q) (attempt : Z) : Q := (Qmax d 4 * inject_Z (attempt + 1))%Q.

End Scanarr.

(** ** Concrete backends, used to run the model *)

Module Examples.
Import Scanarr.

(** An instance of the case mappings, for running the model at concrete
    inputs.  All text of the examples is ASCII, on which [PyStr.lower] does
    not consult the instance. *)
Definition ascii_unicode : Unicode := {| lower_unicode := fun s => s |}.

Definition searcher0 : searcher := make_searcher "http://127.0.0.1:9117" "key" "tracker".

(** A search response without indexer errors, carrying [rs]. *)
Definition ok_body (rs : list search_result) : search_reply :=
  SearchResponse 200 (Some {| Indexers := Present [ {| Error := None |} ];
                              Results := Present rs |}).

(** A search response in which one indexer reports [e]. *)
Definition error_body (e : string) : search_reply :=
  SearchResponse 200 (Some {| Indexers := Present [ {| Error := None |}; {| Error := Some e |} ];
                              Results := Present [] |}).

(** A descriptor whose [info.name] is [name]. *)
Definition torrent (name : string) : fetch_reply :=
  FetchResponse 200
    (Some (Bencode.Dict [ ("announce", Bencode.Bytes "http://t/announce");
                          ("info", Bencode.Dict [ ("length", Bencode.Int 1);
                                                  ("name", Bencode.Bytes name) ]) ])).

Definition candidate (title link : string) : search_result :=
  {| Title := Some title; Link := Some link |}.

(** Two indexer errors, then one candidate named [Show.S01.GROUP-EXTRA]. *)
Definition flaky_backend : backend :=
  {| search_reply_at := fun n => if (n <? 2)%nat then error_body "TooManyRequests"
                                 else ok_body [candidate "Show S01" "http://l/1"];
     fetch_reply_at := fun _ => torrent "Show.S01.GROUP-EXTRA" |}.

(** Every search succeeds with no result. *)
Definition empty_backend : backend := constant_backend (ok_body []) (FetchRaised Timeout).

(** Every search request times out. *)
Definition timeout_backend : backend :=
  constant_backend (SearchRaised Timeout) (FetchRaised Timeout).

(** Every search request is answered with status 503. *)
Definition unavailable_backend : backend :=
  constant_backend (SearchResponse 503 None) (FetchRaised Timeout).

(** Every search reports an indexer error. *)
Definition failing_backend : backend :=
  constant_backend (error_body "Connection refused") (torrent "Show.S01.GROUP").

(** One candidate, whose descriptor declares the empty name. *)
Definition unnamed_candidate : search_result := candidate "Show S01" "http://l/1".

Definition unnamed_backend : backend :=
  constant_backend (ok_body [unnamed_candidate]) (torrent "").

(** Six candidates. *)
Definition six_candidates : list search_result :=
  map (candidate "Show S01") ["http://l/1"; "http://l/2"; "http://l/3";
                              "http://l/4"; "http://l/5"; "http://l/6"].

Definition crowded_backend : backend :=
  constant_backend (ok_body six_candidates) (torrent "Show.S01.GROUP").

(** Candidates of which the first cannot be downloaded, the second has no
    link and the third matches. *)
Definition mixed_candidates : list search_result :=
  [ candidate "A" "http://l/1"; {| Title := Some "B"; Link := None |};
    candidate "C" "http://l/3" ].

Definition mixed_backend : backend :=
  {| search_reply_at := fun _ => ok_body mixed_candidates;
     fetch_reply_at := fun n => if (n =? 0)%nat then FetchResponse 404 None
                                else torrent "show.s01.group" |}.

End Examples.

(** ** Group filtering: [extract_group_name] and [filter_items_by_group] *)

Module Groups.

(** [s.split(sep)] for a single-character separator: the pieces between the
    separators, at least one. *)
Fixpoint split (sep : ascii) (s : string) : list string :=
  match s with
  | EmptyString => [EmptyString]
  | String c t =>
      if Ascii.eqb c sep then EmptyString :: split sep t
      else match split sep t with
           | [] => [String c EmptyString]
           | piece :: pieces => String c piece :: pieces
           end
  end.

Definition extract_group_name (filename : string) : string :=
  if PyStr.contains "-" filename
  then last (split "-" filename) EmptyString
  else "".

(** The loop of [filter_items_by_group], with its two accumulators. *)
Fixpoint filter_loop (items excluded_groups : list string)
    (filtered_items : list string) (skipped_count : nat) : list string * nat :=
  match items with
  | [] => (filtered_items, skipped_count)
  | item :: rest =>
      let group_name := extract_group_name item in
      if Scanarr.member group_name excluded_groups
      then filter_loop rest excluded_groups filtered_items (S skipped_count)
      else filter_loop rest excluded_groups (filtered_items ++ [item])%list skipped_count
  end.

Definition filter_items_by_group (items excluded_groups : list string)
  : list string * nat :=
  match excluded_groups with
  | [] => (items, 0%nat)
  | _ :: _ => filter_loop items excluded_groups [] 0
  end.

(** The item belongs to one of the excluded groups. *)
Definition excluded (excluded_groups : list string) (item : string) : bool :=
  Scanarr.member (extract_group_name item) excluded_groups.

End Groups.

(** ** What a computation may add to the trace *)

Module Observations.
Import Scanarr.

(** The search request of [query]. *)
Definition request_of (self : searcher) (query : string)
  : string * list (string * string) :=
  (search_url self, search_params self query).

(** The events one call of [search_and_verify] for [query] may record. *)
Definition call_event (self : searcher) (query : string) (e : event) : Prop :=
  match e with
  | EGet url params timeout => (url, params) = request_of self query /\ timeout = 30%Z
  | EFetch _ timeout => timeout = 30%Z
  | ESleep _ => True
  | EPrint _ => True
  | EProgress _ _ _ => False
  | EAdvance => False
  end.

(** The events a batch over [items] may record. *)
Definition batch_event (self : searcher) (items : list string) (e : event) : Prop :=
  match e with
  | EGet url params timeout =>
      (exists item, In item items /\ (url, params) = request_of self item) /\ timeout = 30%Z
  | EFetch _ timeout => timeout = 30%Z
  | _ => True
  end.

(** [st'] continues [st]: the trace grew by events that satisfy [P], and
    the two counters grew by the numbers of requests among them. *)
Definition extends (P : event -> Prop) (st st' : state) : Prop :=
  exists evs,
    trace st' = (trace st ++ evs)%list
    /\ Forall P evs
    /\ nsearch st' = (nsearch st + List.length (gets evs))%nat
    /\ nfetch st' = (nfetch st + List.length (fetches evs))%nat.

(** Whatever its outcome, [m] only records events that satisfy [P]. *)
Definition emits {A : Type} (P : event -> Prop) (m : M A) : Prop :=
  forall st, extends P st (snd (m st)).

(** What the loop of [search_and_verify_all] does for an item before it
    verifies it, and after. *)
Definition before_item (total i : nat) (item : string) : M unit :=
  bind get_delay (fun d =>
  bind (if (1 <? i)%nat && positive d then sleep d else ret tt) (fun _ =>
  emit (EProgress i total (PyStr.take 50 item)))).

Definition after_item : M unit := emit EAdvance.

(** [l] is [l'] with some elements left out. *)
Inductive Subsequence {A : Type} : list A -> list A -> Prop :=
| Subsequence_nil : Subsequence [] []
| Subsequence_skip (x : A) (l l' : list A) : Subsequence l l' -> Subsequence l (x :: l')
| Subsequence_keep (x : A) (l l' : list A) : Subsequence l l' -> Subsequence (x :: l) (x :: l').

End Observations.

(** ** The query as the backend decodes it *)

Module Wire.

(** One byte as [quote_plus] writes it. *)
Definition encode_byte (c : ascii) : string :=
  if Url.always_safe c then String c EmptyString
  else if Ascii.eqb c " " then "+"
  else Url.percent c.

Fixpoint encode (s : string) : string :=
  match s with
  | EmptyString => EmptyString
  | String c t => encode_byte c ++ encode t
  end.

(** Every byte of [s] is a letter, a digit or one of [_.-~]. *)
Fixpoint all_safe (s : string) : bool :=
  match s with
  | EmptyString => true
  | String c t => Url.always_safe c && all_safe t
  end.

End Wire.

(** ** The file system: sample and proof detection, labels *)

Module Files.

(** The file system as the program sees it.  [listdir] and [getsize] give
    nothing when the call raises [OSError]; [walk] gives the triples
    [os.walk] yields, and whether the iteration then ends with
    [OSError]. *)
Record filesystem : Type := {
  isdir : string -> bool;
  listdir : string -> option (list string);
  walk : string -> list (string * list string * list string) * bool;
  getsize : string -> option Z
}.

(** [s.endswith("/")] *)
Fixpoint ends_with_sep (s : string) : bool :=
  match s with
  | EmptyString => false
  | String c EmptyString => Ascii.eqb c "/"
  | String _ t => ends_with_sep t
  end.

(** [os.path.join(a, b)] on POSIX. *)
Definition join (a b : string) : string :=
  if PyStr.startswith "/" b then b
  else if negb (PyStr.truthy a) || ends_with_sep a then a ++ b
  else a ++ "/" ++ b.

(** [s.rfind(c)], scanning from index [i] with the best index so far. *)
Fixpoint rfind_from (c : ascii) (s : string) (i best : Z) : Z :=
  match s with
  | EmptyString => best
  | String a t => rfind_from c t (i + 1) (if Ascii.eqb a c then i else best)
  end.

Definition rfind (c : ascii) (s : string) : Z := rfind_from c s 0 (-1).

(** [s[n:]] *)
Fixpoint drop (n : nat) (s : string) : string :=
  match n, s with
  | O, _ => s
  | S _, EmptyString => EmptyString
  | S n', String _ t => drop n' t
  end.

(** The [while] loop of [splitext]: whether one of the [steps] characters
    from [filenameIndex] on is not a dot. *)
Fixpoint has_non_dot (p : string) (filenameIndex steps : nat) : bool :=
  match steps with
  | O => false
  | S k =>
      match String.get filenameIndex p with
      | Some c => if Ascii.eqb c "." then has_non_dot p (S filenameIndex) k else true
      | None => true
      end
  end.

(** [os.path.splitext(p)] on POSIX. *)
Definition splitext (p : string) : string * string :=
  let sepIndex := rfind "/" p in
  let dotIndex := rfind "." p in
  if (sepIndex <? dotIndex)%Z then
    let filenameIndex := (sepIndex + 1)%Z in
    if has_non_dot p (Z.to_nat filenameIndex) (Z.to_nat (dotIndex - filenameIndex))
    then (PyStr.take (Z.to_nat dotIndex) p, drop (Z.to_nat dotIndex) p)
    else (p, EmptyString)
  else (p, EmptyString).

Definition min_size : Z := 1 * 1024 * 1024.
Definition max_size : Z := 110 * 1024 * 1024.

Definition media_extensions : list string :=
  [".mkv"; ".mp4"; ".avi"; ".mov"; ".wmv"; ".flv"; ".webm"; ".m4v";
   ".mpg"; ".mpeg"; ".3gp"; ".asf"; ".rm"; ".rmvb"; ".ts"; ".m2ts";
   ".mts"; ".vob"; ".ogv"; ".divx"; ".xvid"].

Definition image_extensions : list string :=
  [".jpg"; ".jpeg"; ".png"; ".gif"; ".bmp"; ".tiff"; ".tif"; ".webp";
   ".svg"; ".ico"; ".psd"; ".raw"; ".cr2"; ".nef"; ".arw"; ".dng"].

(** What these functions print. *)
Inductive warning : Type :=
| WarnCheckingFolder (folder_path : string)
| WarnCheckingProofs (folder_path : string).

(** [os.path.splitext(file)[1].lower()] *)
Definition file_ext {unicode : Unicode} (file : string) : string := PyStr.lower (snd (splitext file)).

(** The inner loop of [has_sample_files] over the files of one directory:
    [true] when it returns [True]. *)
Fixpoint sample_among {unicode : Unicode} (fs : filesystem) (root : string) (files : list string) : bool :=
  match files with
  | [] => false
  | file :: rest =>
      if negb (Scanarr.member (file_ext file) media_extensions) then sample_among fs root rest
      else
        let file_path := join root file in
        match getsize fs file_path with
        | Some file_size =>
            if ((min_size <=? file_size) && (file_size <=? max_size))%Z then true
            else sample_among fs root rest
        | None => sample_among fs root rest
        end
  end.

Fixpoint sample_in_walk {unicode : Unicode} (fs : filesystem)
    (entries : list (string * list string * list string)) : bool :=
  match entries with
  | [] => false
  | (root, _, files) :: rest =>
      if sample_among fs root files then true else sample_in_walk fs rest
  end.

Definition has_sample_files {unicode : Unicode} (fs : filesystem) (folder_path : string) : bool * list warning :=
  let '(entries, fails) := walk fs folder_path in
  if sample_in_walk fs entries then (true, [])
  else if fails : bool then (false, [WarnCheckingFolder folder_path])
  else (false, []).

(** The inner loop of [has_proof_images]. *)
Fixpoint proof_among {unicode : Unicode} (files : list string) : bool :=
  match files with
  | [] => false
  | file :: rest =>
      if negb (Scanarr.member (file_ext file) image_extensions) then proof_among rest
      else if PyStr.contains "proof" (PyStr.lower file) then true
      else proof_among rest
  end.

Fixpoint proof_in_walk {unicode : Unicode} (entries : list (string * list string * list string)) : bool :=
  match entries with
  | [] => false
  | (_, _, files) :: rest => if proof_among files then true else proof_in_walk rest
  end.

Definition has_proof_images {unicode : Unicode} (fs : filesystem) (folder_path : string) : bool * list warning :=
  let '(entries, fails) := walk fs folder_path in
  if proof_in_walk entries then (true, [])
  else if fails : bool then (false, [WarnCheckingProofs folder_path])
  else (false, []).

(** A Python [dict] from item names to flags, in insertion order. *)
Definition dict : Type := list (string * bool).

(** [d[key] = value] *)
Fixpoint dict_set (key : string) (value : bool) (d : dict) : dict :=
  match d with
  | [] => [(key, value)]
  | (k, v) :: rest =>
      if String.eqb k key then (k, value) :: rest else (k, v) :: dict_set key value rest
  end.

(** [d.get(key, default)] *)
Fixpoint dict_get (key : string) (d : dict) (default : bool) : bool :=
  match d with
  | [] => default
  | (k, v) :: rest => if String.eqb k key then v else dict_get key rest default
  end.

(** The loop shared by [get_sample_indicators] and [get_proof_indicators],
    for the check [has] of a folder. *)
Fixpoint indicators_loop (fs : filesystem) (has : filesystem -> string -> bool * list warning)
    (base_directory : string) (items : list string) (result : dict) (out : list warning)
  : dict * list warning :=
  match items with
  | [] => (result, out)
  | item :: rest =>
      let item_path := join base_directory item in
      if isdir fs item_path then
        let '(flag, printed) := has fs item_path in
        indicators_loop fs has base_directory rest (dict_set item flag result)
          (out ++ printed)%list
      else
        indicators_loop fs has base_directory rest (dict_set item false result) out
  end.

Definition get_sample_indicators {unicode : Unicode} (fs : filesystem) (items : list string)
    (base_directory : string) : dict * list warning :=
  indicators_loop fs has_sample_files base_directory items [] [].

Definition get_proof_indicators {unicode : Unicode} (fs : filesystem) (items : list string)
    (base_directory : string) : dict * list warning :=
  indicators_loop fs has_proof_images base_directory items [] [].

(** One element of the list [get_labelled_items] returns; [has_samples]
    and [has_proof] are the two entries of its [labels]. *)
Record item_info : Type := {
  name : string;
  original_name : string;
  is_folder : bool;
  has_samples : bool;
  has_proof : bool
}.

(** ['(' + ''.join(labels) + ')'] for the labels of the two flags. *)
Definition label_string (samples proof : bool) : string :=
  "(" ++ (if samples then "S" else "") ++ (if proof then "P" else "") ++ ")".

Fixpoint labelled_loop (fs : filesystem) (base_directory : string)
    (sample_indicators proof_indicators : dict) (items : list string)
    (result : list item_info) : list item_info :=
  match items with
  | [] => result
  | item :: rest =>
      let item_path := join base_directory item in
      let samples := dict_get item sample_indicators false in
      let proof := dict_get item proof_indicators false in
      let info :=
        {| name := if samples || proof then label_string samples proof ++ " " ++ item else item;
           original_name := item;
           is_folder := isdir fs item_path;
           has_samples := samples;
           has_proof := proof |} in
      labelled_loop fs base_directory sample_indicators proof_indicators rest
        (result ++ [info])%list
  end.

Definition get_labelled_items {unicode : Unicode} (fs : filesystem) (items : list string)
    (base_directory : string) : list item_info * list warning :=
  let '(sample_indicators, out1) := get_sample_indicators fs items base_directory in
  let '(proof_indicators, out2) := get_proof_indicators fs items base_directory in
  (labelled_loop fs base_directory sample_indicators proof_indicators items [],
   (out1 ++ out2)%list).

(** What [get_labelled_items] should say about one item, computed without
    the two dictionaries. *)
Definition label_of {unicode : Unicode} (fs : filesystem) (base_directory item : string) : item_info :=
  let item_path := join base_directory item in
  let samples := isdir fs item_path && fst (has_sample_files fs item_path) in
  let proof := isdir fs item_path && fst (has_proof_images fs item_path) in
  {| name := if samples || proof then label_string samples proof ++ " " ++ item else item;
     original_name := item;
     is_folder := isdir fs item_path;
     has_samples := samples;
     has_proof := proof |}.

(** A file below a folder that makes [has_sample_files] answer yes. *)
Definition is_sample {unicode : Unicode} (fs : filesystem) (root file : string) : Prop :=
  In (file_ext file) media_extensions
  /\ exists size, getsize fs (join root file) = Some size
                  /\ (1048576 <= size <= 115343360)%Z.

(** A file that makes [has_proof_images] answer yes. *)
Definition is_proof_image {unicode : Unicode} (file : string) : Prop :=
  In (file_ext file) image_extensions
  /\ PyStr.Substring "proof" (PyStr.lower file).

End Files.

(** ** The program: [main] *)

Module Main.
Import Scanarr Groups Files.

(** The parsed command line. *)
Record arguments : Type := {
  input_dir : string;
  arg_api_url : string;
  arg_api_key : string;
  arg_tracker : string;
  exclude_groups : list string;
  arg_delay : Q;
  arg_verbose : bool
}.

(** What [main] and [get_files_and_folders] print themselves; a line of
    the list of items not found is given as the string passed to
    [console.print]. *)
Inductive output : Type :=
| SayNotADirectory (dir : string)
| SayUsingDelay (d : Q)
| SayScanning (dir : string)
| SayReadError (dir : string)
| SayFoundItems (n : nat)
| SayExcludedGroups (groups : list string)
| SaySkipped (n : nat)
| SayItemsToSearch (n : nat)
| SayBlank
| SayRule
| SayResults
| SayChecking
| SayWarning (w : warning)
| SayNotFoundHeader (n : nat)
| SayLine (line : string)
| SayLegend
| SayLegendSamples
| SayLegendProof
| SayAllFound
| SayTotalItems (n : nat)
| SaySkippedTotal (n : nat)
| SayItemsChecked (n : nat)
| SayItemsFound (n : Z)
| SayItemsNotFound (n : nat).

(** [get_files_and_folders(directory)]: the names, or the error message
    with which the process ends. *)
Definition get_files_and_folders (fs : filesystem) (directory : string)
  : list string + list output :=
  match listdir fs directory with
  | Some names => inl names
  | None => inr [SayReadError directory]
  end.

(** [' ' * n] *)
Definition spaces (n : nat) : string := string_of_list_ascii (repeat " "%char n).

(** [s.ljust(width)] *)
Definition ljust (s : string) (width : nat) : string :=
  s ++ spaces (width - String.length s).

(** The label of a record, or nothing when neither flag is set. *)
Definition record_label (info : item_info) : option string :=
  if has_samples info || has_proof info
  then Some (label_string (has_samples info) (has_proof info))
  else None.

(** The first loop over [labelled_items]: the widest label. *)
Fixpoint widest_label (labelled_items : list item_info) (max_label_width : nat) : nat :=
  match labelled_items with
  | [] => max_label_width
  | info :: rest =>
      match record_label info with
      | Some label => widest_label rest (Nat.max max_label_width (String.length label))
      | None => widest_label rest max_label_width
      end
  end.

(** The line printed for one record. *)
Definition report_line (max_label_width : nat) (info : item_info) : string :=
  match record_label info with
  | Some label =>
      "  [yellow]" ++ ljust label max_label_width ++ "[/yellow] " ++ original_name info
  | None =>
      let padding := if (0 <? max_label_width)%nat then spaces (max_label_width + 1) else "" in
      "  " ++ padding ++ original_name info
  end.

(** The lines from [RESULTS] to the legend, for a list [not_found] that is
    not empty. *)
Definition report {unicode : Unicode} (fs : filesystem) (args : arguments) (not_found : list string)
  : list output :=
  let '(labelled_items, warnings) := get_labelled_items fs not_found (input_dir args) in
  let max_label_width := widest_label labelled_items 0 in
  let any_samples := existsb has_samples labelled_items in
  let any_proof := existsb has_proof labelled_items in
  ([SayChecking]
   ++ map SayWarning warnings
   ++ [SayNotFoundHeader (List.length labelled_items)]
   ++ map (fun info => SayLine (report_line max_label_width info)) labelled_items
   ++ (if any_samples || any_proof
       then [SayLegend] ++ (if any_samples then [SayLegendSamples] else [])
                        ++ (if any_proof then [SayLegendProof] else [])
       else []))%list.

(** The closing figures. *)
Definition figures (all_items items not_found : list string) (skipped_count : nat)
  : list output :=
  ([SayTotalItems (List.length all_items)]
   ++ (if (0 <? skipped_count)%nat then [SaySkippedTotal skipped_count] else [])
   ++ [SayItemsChecked (List.length items);
       SayItemsFound (Z.of_nat (List.length items) - Z.of_nat (List.length not_found));
       SayItemsNotFound (List.length not_found)])%list.

(** [main()], after the command line is parsed: what it prints itself, how
    it ends, and the state of the searcher (whose own requests, waits and
    messages are in the trace of that state). *)
Definition main {unicode : Unicode} (args : arguments) (fs : filesystem) (w : backend)
  : list output * (outcome unit * state) :=
  let st0 := initial_state (arg_delay args) in
  if negb (isdir fs (input_dir args)) then
    ([SayNotADirectory (input_dir args)], (Exit 1, st0))
  else
    let searcher := make_searcher (arg_api_url args) (arg_api_key args) (arg_tracker args) in
    let said1 :=
      ((if positive (arg_delay args) then [SayUsingDelay (arg_delay args)] else [])
       ++ [SayScanning (input_dir args)])%list in
    match get_files_and_folders fs (input_dir args) with
    | inr failure => ((said1 ++ failure)%list, (Exit 1, st0))
    | inl all_items =>
        let '(items, skipped_count) := filter_items_by_group all_items (exclude_groups args) in
        let said2 :=
          (said1
           ++ [SayFoundItems (List.length all_items)]
           ++ (match exclude_groups args with
               | [] => []
               | _ :: _ => [SayExcludedGroups (exclude_groups args); SaySkipped skipped_count]
               end)
           ++ [SayItemsToSearch (List.length items); SayBlank])%list in
        match main_search searcher w items (arg_verbose args) st0 with
        | (Ret not_found, st) =>
            ((said2
              ++ [SayRule; SayResults; SayRule]
              ++ (match not_found with
                  | [] => [SayAllFound]
                  | _ :: _ => report fs args not_found
                  end)
              ++ figures all_items items not_found skipped_count)%list,
             (Ret tt, st))
        | (Exit c, st) => (said2, (Exit c, st))
        | (Raise e, st) => (said2, (Raise e, st))
        end
    end.

(** The items [main] hands to the searcher. *)
Definition searched_items (args : arguments) (fs : filesystem) : list string :=
  match listdir fs (input_dir args) with
  | Some all_items =>
      filter (fun item => negb (excluded (exclude_groups args) item)) all_items
  | None => []
  end.

End Main.

(** ** A small directory, used to run the model *)

Module FileExamples.
Import Scanarr Examples Files Main.

(** [/data] holds a release folder with a sample and a proof image, a
    second release and a text file. *)
Definition demo_fs : filesystem :=
  {| isdir := fun p => String.eqb p "/data" || String.eqb p "/data/Show.S01-GROUP";
     listdir := fun p =>
       if String.eqb p "/data"
       then Some ["Show.S01-GROUP"; "Movie.2020-NOGRP"; "notes.txt"]
       else None;
     walk := fun p =>
       if String.eqb p "/data/Show.S01-GROUP"
       then ([ ("/data/Show.S01-GROUP", ["Sample"], ["show.mkv"; "Proof.JPG"]);
               ("/data/Show.S01-GROUP/Sample", [], ["sample.MKV"; "unreadable.mkv"]) ],
             false)
       else ([], false);
     getsize := fun p =>
       if String.eqb p "/data/Show.S01-GROUP/show.mkv" then Some 2147483648%Z
       else if String.eqb p "/data/Show.S01-GROUP/Sample/sample.MKV" then Some 52428800%Z
       else None |}.

Definition demo_args : arguments :=
  {| input_dir := "/data";
     arg_api_url := "http://127.0.0.1:9117";
     arg_api_key := "key";
     arg_tracker := "tracker";
     exclude_groups := ["NOGRP"];
     arg_delay := 0;
     arg_verbose := false |}.

Definition missing_args : arguments :=
  {| input_dir := "/nowhere";
     arg_api_url := "http://127.0.0.1:9117";
     arg_api_key := "key";
     arg_tracker := "tracker";
     exclude_groups := [];
     arg_delay := 0;
     arg_verbose := false |}.

End FileExamples.

(** * Properties *)

(** ** Strings *)

Module PyStrFacts.
Import PyStr.

Lemma startswith_spec (needle hay : string) :
  startswith needle hay = true <-> exists rest, hay = needle ++ rest.
Proof.
  revert hay; induction needle as [|a n IH]; intros hay; simpl.
  - split; [intros _; now exists hay | reflexivity].
  - destruct hay as [|b h].
    + split; [discriminate | intros [rest H]; discriminate].
    + rewrite andb_true_iff, Ascii.eqb_eq, IH. split.
      * intros [-> [rest ->]]. now exists rest.
      * intros [rest H]. injection H as -> ->. split; [reflexivity | now exists rest].
Qed.

Lemma contains_spec (needle hay : string) :
  contains needle hay = true <-> Substring needle hay.
Proof.
  unfold Substring. induction hay as [|c h IH]; simpl.
  - rewrite orb_false_r, startswith_spec. split.
    + intros [rest H]. exists "", rest. exact H.
    + intros [pre [post H]]. destruct pre; [|discriminate]. now exists post.
  - rewrite orb_true_iff, startswith_spec, IH. split.
    + intros [[rest H] | [pre [post H]]].
      * exists "", rest. exact H.
      * exists (String c pre), post. simpl. now rewrite H.
    + intros [pre [post H]]. destruct pre as [|c' pre]; simpl in H.
      * left. now exists post.
      * right. injection H as _ H. now exists pre, post.
Qed.

Lemma truthy_spec (s : string) : truthy s = true <-> s <> "".
Proof. destruct s; simpl; split; congruence. Qed.

(** On ASCII text [str.lower] is the letter-by-letter lowering, whatever
    the case mappings of other text. *)
Lemma lower_ascii_text {unicode : Unicode} (s : string) :
  is_ascii s = true -> lower s = lower_bytes s.
Proof. unfold lower. now intros ->. Qed.

Lemma is_ascii_app (a b : string) : is_ascii (a ++ b) = is_ascii a && is_ascii b.
Proof.
  induction a as [|c a IH]; [reflexivity|]. cbn. now rewrite IH, andb_assoc.
Qed.

Lemma lower_bytes_app (a b : string) : lower_bytes (a ++ b) = lower_bytes a ++ lower_bytes b.
Proof. induction a as [|c a IH]; [reflexivity|]. cbn. now rewrite IH. Qed.

End PyStrFacts.

(** ** The search protocol *)

Module ScanarrFacts.
Import Scanarr.
Local Open Scope scanarr_scope.

Section Protocol.
Context {unicode : Unicode}.


Lemma effects_refl st : effects st st 0 [] [].
Proof. unfold effects. rewrite !app_nil_r. simpl. repeat split; lia. Qed.

Lemma effects_trans st st1 st2 a f s a' f' s' :
  effects st st1 a f s -> effects st1 st2 a' f' s' ->
  effects st st2 (a + a') (f ++ f')%list (s ++ s')%list.
Proof.
  unfold effects. intros (H1 & H2 & H3 & H4) (K1 & K2 & K3 & K4).
  rewrite K1, K2, K3, K4, H1, H2, H3, H4, length_app, !app_assoc.
  repeat split; lia.
Qed.

Lemma get_torrent_name_run (w : backend) (link : option string) (st : state) :
  exists st',
    get_torrent_name w link st = (Ret (torrent_name_at w (nfetch st) link), st')
    /\ delay st' = delay st
    /\ effects st st' 0 (option_list link) [].
Proof.
  assert (done : forall (name : string) (st' : state) (fetched : list string) (evs : list event),
             st' = {| delay := delay st; nsearch := nsearch st;
                      nfetch := (nfetch st + List.length fetched)%nat;
                      trace := (trace st ++ evs)%list |} ->
             fetches evs = fetched -> sleeps evs = [] ->
             delay st' = delay st /\ effects st st' 0 fetched []).
  { intros name st' fetched evs -> Hf Hs. split; [reflexivity|].
    unfold effects; cbn. unfold fetches, sleeps in *.
    rewrite !flat_map_app, Hf, Hs, app_nil_r. repeat split; lia. }
  destruct st as [d ns nf tr].
  unfold torrent_name_at, get_torrent_name, try_except, session_get_torrent, bind, probe.
  cbv beta iota delta [nfetch nsearch delay trace] in *.
  destruct link as [u|].
  - destruct (fetch_reply_at w nf) as [e | status content].
    + eexists; split; [reflexivity|]. eapply (done ""); cbn.
      * rewrite <- app_assoc, Nat.add_1_r. reflexivity.
      * reflexivity.
      * reflexivity.
    + unfold lift. destruct (raise_for_status status).
      2:{ eexists; split; [reflexivity|]. eapply (done ""); cbn.
          - rewrite <- app_assoc, Nat.add_1_r. reflexivity.
          - reflexivity.
          - reflexivity. }
      destruct content as [v|].
      2:{ eexists; split; [reflexivity|]. eapply (done ""); cbn.
          - rewrite <- app_assoc, Nat.add_1_r. reflexivity.
          - reflexivity.
          - reflexivity. }
      cbn. destruct (info_name v) as [[name|]|e];
        (eexists; split; [reflexivity|]; eapply (done ""); cbn;
         [ rewrite <- ?app_assoc, Nat.add_1_r; reflexivity | reflexivity | reflexivity ]).
  - eexists; split; [reflexivity|]. eapply (done ""); cbn.
    + rewrite Nat.add_0_r. reflexivity.
    + reflexivity.
    + reflexivity.
Qed.
Lemma search_tracker_run (self : searcher) (w : backend) (query : string) (st : state) :
  let r := search_reply_at w (nsearch st) in
  search_tracker self w query st =
    (search_outcome self query r,
     {| delay := delay st; nsearch := S (nsearch st); nfetch := nfetch st;
        trace := (trace st ++ EGet (search_url self) (search_params self query) 30
                           :: search_prints self query r)%list |}).
Proof.
  intros r. unfold search_outcome, search_prints, search_tracker, search_url.
  generalize (search_params self query) as ps. intros ps.
  generalize (api_url self ++ "/api/v2.0/indexers/all/results") as u. intros u.
  unfold bind at 1 3 5. unfold session_get_search at 1 2 3. cbn [constant_backend search_reply_at initial_state nsearch trace delay nfetch app].
  fold r. destruct r as [e | status body]; [reflexivity|].
  unfold bind, lift. destruct (raise_for_status status); [|reflexivity].
  destruct body as [js|]; [|reflexivity]. cbn.
  destruct (Indexers js) as [| |ixs]; cbn; try reflexivity.
  destruct (first_error ixs) as [err|]; cbn; [|reflexivity].
  rewrite <- app_assoc. reflexivity.
Qed.

Lemma search_prints_prints (self : searcher) (query : string) (r : search_reply) :
  exists ms, search_prints self query r = map EPrint ms.
Proof.
  unfold search_prints, search_tracker, bind, session_get_search, lift.
  cbn [constant_backend search_reply_at initial_state nsearch trace delay nfetch app].
  destruct r as [e | status body]; [now exists []|].
  destruct (raise_for_status status); [|now exists []].
  destruct body as [js|]; [|now exists []]. cbn.
  destruct (Indexers js) as [| |ixs]; cbn; try (now exists []).
  destruct (first_error ixs) as [err|]; cbn; [|now exists []].
  eexists [_]. reflexivity.
Qed.

Lemma search_outcome_no_exit (self : searcher) (query : string) (r : search_reply) (c : Z) :
  search_outcome self query r <> Exit c.
Proof.
  unfold search_outcome, search_tracker, bind, session_get_search, lift.
  cbn [constant_backend search_reply_at initial_state nsearch trace delay nfetch app].
  destruct r as [e | status body]; [discriminate|].
  destruct (raise_for_status status); [|discriminate].
  destruct body as [js|]; [|discriminate]. cbn.
  destruct (Indexers js) as [| |ixs]; cbn; try discriminate.
  destruct (first_error ixs) as [err|]; cbn; discriminate.
Qed.

Lemma fetches_prints (ms : list message) : fetches (map EPrint ms) = [].
Proof. induction ms; [reflexivity | exact IHms]. Qed.

Lemma sleeps_prints (ms : list message) : sleeps (map EPrint ms) = [].
Proof. induction ms; [reflexivity | exact IHms]. Qed.

Lemma search_tracker_effects (self : searcher) (w : backend) (query : string) (st : state) :
  exists st',
    search_tracker self w query st
    = (search_outcome self query (search_reply_at w (nsearch st)), st')
    /\ delay st' = delay st
    /\ effects st st' 1 [] [].
Proof.
  eexists. split; [apply search_tracker_run|]. cbn. split; [reflexivity|].
  destruct (search_prints_prints self query (search_reply_at w (nsearch st))) as [ms ->].
  unfold effects; cbn. unfold fetches, sleeps. rewrite !flat_map_app. cbn.
  fold (fetches (map EPrint ms)). fold (sleeps (map EPrint ms)).
  rewrite fetches_prints, sleeps_prints, !app_nil_r. repeat split; lia.
Qed.

Lemma results_loop_run (w : backend) (query : string) (raw : list search_result) :
  forall (results : list (option string)) (found : bool) (st : state),
  exists st',
    results_loop w query raw results found st
    = (Ret ((results ++ map Title raw)%list,
            found || existsb (candidate_matches query) (extracted_names w (nfetch st) raw)),
       st')
    /\ delay st' = delay st
    /\ effects st st' 0 (links raw) [].
Proof.
  induction raw as [|r rest IH]; intros results found st.
  - exists st. cbn. rewrite app_nil_r, orb_false_r.
    split; [reflexivity|]. split; [reflexivity | apply effects_refl].
  - cbn [results_loop]. unfold bind at 1.
    destruct (get_torrent_name_run w (Link r) st) as (st1 & -> & Hd & He).
    destruct (IH (results ++ [Title r])%list
                 (if PyStr.truthy (torrent_name_at w (nfetch st) (Link r))
                     && matches_query (torrent_name_at w (nfetch st) (Link r)) query
                  then true else found) st1) as (st2 & -> & Hd2 & He2).
    exists st2. split; [|split].
    + assert (Hn : nfetch st1 = after_link (nfetch st) (Link r)).
      { destruct He as (_ & Hn & _). rewrite Hn. destruct (Link r); cbn; lia. }
      rewrite Hn, <- app_assoc. cbn [extracted_names existsb map app].
      unfold candidate_matches at 2.
      destruct (PyStr.truthy _ && matches_query _ query); cbn;
        [now rewrite orb_true_r | reflexivity].
    + congruence.
    + pose proof (effects_trans _ _ _ _ _ _ _ _ _ He He2) as H.
      cbn in H. unfold links. cbn [flat_map]. unfold links in H.
      replace (match Link r with Some u => [u] | None => [] end) with (option_list (Link r))
        by (destruct (Link r); reflexivity).
      exact H.
Qed.

Lemma emit_effects_print (m : message) (st : state) :
  effects st (snd (print m st)) 0 [] [] /\ delay (snd (print m st)) = delay st.
Proof.
  unfold effects, print, emit, fetches, sleeps; cbn. rewrite !flat_map_app; cbn.
  rewrite !app_nil_r. repeat split; lia.
Qed.

Lemma effects_tidy st st' a f s :
  effects st st' (a + 0) (f ++ [])%list (s ++ [])%list -> effects st st' a f s.
Proof. now rewrite Nat.add_0_r, !app_nil_r. Qed.

Lemma effects_then_print st st1 a f s (m : message) :
  effects st st1 a f s -> effects st (snd (print m st1)) a f s.
Proof.
  intros H. apply effects_tidy.
  exact (effects_trans _ _ _ _ _ _ _ _ _ H (proj1 (emit_effects_print m st1))).
Qed.

Lemma prints_run (ms : list message) :
  forall s, exists s', prints ms s = (Ret tt, s')
                       /\ delay s' = delay s /\ effects s s' 0 [] [].
Proof.
  induction ms as [|m ms IHms]; intros s.
  - exists s. split; [reflexivity|]. split; [reflexivity | apply effects_refl].
  - cbn [prints]. unfold bind, print at 1, emit at 1.
    match goal with |- context [prints ms ?x] => destruct (IHms x) as (s' & -> & Hds & Hes) end.
    exists s'. split; [reflexivity|]. split; [exact Hds|].
    exact (effects_trans _ _ _ _ _ _ _ _ _ (proj1 (emit_effects_print m s)) Hes).
Qed.

Lemma retry_loop_skip (self : searcher) (w : backend) (query : string)
    (pre rest : list Z) :
  forall (had : bool) (st : state),
    (forall j, (j < List.length pre)%nat -> attempt_fails self w query (nsearch st + j)) ->
    exists st1,
      retry_loop self w query (pre ++ rest)%list had st
      = retry_loop self w query rest (had || negb (Nat.eqb (List.length pre) 0)) st1
      /\ delay st1 = delay st
      /\ effects st st1 (List.length pre) [] (map (retry_wait (delay st)) pre).
Proof.
  induction pre as [|a pre IH]; intros had st Hfail.
  - exists st. cbn. rewrite orb_false_r. split; [reflexivity|].
    split; [reflexivity | apply effects_refl].
  - cbn [app retry_loop]. unfold bind at 1.
    destruct (search_tracker_effects self w query st) as (sa & -> & Hda & Hea).
    pose proof (Hfail 0%nat ltac:(cbn; lia)) as H0. rewrite Nat.add_0_r in H0.
    unfold attempt_fails in H0. rewrite H0.
    unfold bind, get_delay, print, sleep, emit. cbn [delay nsearch nfetch trace].
    match goal with |- context [retry_loop _ _ _ _ true ?s] => set (sb := s) end.
    assert (Hb : effects sa sb 0 [] [retry_wait (delay st) a] /\ delay sb = delay st).
    { subst sb. unfold effects, fetches, sleeps, retry_wait; cbn.
      rewrite !flat_map_app; cbn. rewrite !app_nil_r, Hda. repeat split; lia. }
    destruct Hb as [Heb Hdb]. clearbody sb.
    pose proof (effects_trans _ _ _ _ _ _ _ _ _ Hea Heb) as Hab. cbn in Hab.
    destruct (IH true sb) as (st1 & Heq & Hd1 & He1).
    { intros j Hj. destruct Hab as (Hn & _). rewrite Hn.
      replace (nsearch st + 1 + j)%nat with (nsearch st + S j)%nat by lia.
      apply Hfail. cbn. lia. }
    exists st1. split; [|split].
    + rewrite Heq. cbn. now rewrite orb_true_r.
    + congruence.
    + pose proof (effects_trans _ _ _ _ _ _ _ _ _ Hab He1) as H.
      cbn in H. cbn [map List.length]. rewrite Hdb in H. exact H.
Qed.

Lemma range_length (n : Z) : List.length (range n) = Z.to_nat n.
Proof. unfold range. now rewrite length_map, length_seq. Qed.

Lemma range_split (n : Z) (k : nat) :
  (k < Z.to_nat n)%nat ->
  exists post, range n = (range (Z.of_nat k) ++ Z.of_nat k :: post)%list.
Proof.
  intros Hk. unfold range. rewrite Nat2Z.id.
  replace (Z.to_nat n) with (k + S (Z.to_nat n - S k))%nat by lia.
  rewrite seq_app, map_app. cbn. eexists. reflexivity.
Qed.

Lemma verify_exhausted (self : searcher) (w : backend) (query : string) (verbose : bool)
    (st : state) :
  (forall j, (j < Z.to_nat (max_retries self))%nat ->
             attempt_fails self w query (nsearch st + j)) ->
  exists st',
    search_and_verify self w query verbose st = (Exit 1, st')
    /\ delay st' = delay st
    /\ effects st st' (Z.to_nat (max_retries self)) []
                (map (retry_wait (delay st)) (range (max_retries self))).
Proof.
  intros Hfail. unfold search_and_verify. unfold bind at 1.
  destruct (retry_loop_skip self w query (range (max_retries self)) [] false st)
    as (st1 & Heq & Hd & He).
  { intros j Hj. apply Hfail. now rewrite range_length in Hj. }
  rewrite app_nil_r in Heq. rewrite Heq. cbn [retry_loop ret].
  rewrite range_length in He.
  eexists. split; [reflexivity|]. split; [exact Hd|].
  exact (effects_then_print _ _ _ _ _ MsgRetryAdvice
           (effects_then_print _ _ _ _ _ MsgNoRetriesLeft He)).
Qed.

Lemma verify_success (self : searcher) (w : backend) (query : string) (verbose : bool)
    (st : state) (k : nat) (rs : list search_result) :
  (k < Z.to_nat (max_retries self))%nat ->
  (forall j, (j < k)%nat -> attempt_fails self w query (nsearch st + j)) ->
  attempt_succeeds self w query (nsearch st + k) rs ->
  exists st',
    search_and_verify self w query verbose st
    = (if (5 <? List.length rs)%nat then Exit 1
       else Ret (existsb (candidate_matches query) (extracted_names w (nfetch st) rs)),
       st')
    /\ delay st' = (if (5 <? List.length rs)%nat then delay st
                    else if (0 <? k)%nat then (delay st + 1)%Q else delay st)
    /\ effects st st' (S k)
                (if (5 <? List.length rs)%nat then [] else links rs)
                (map (retry_wait (delay st)) (range (Z.of_nat k))).
Proof.
  intros Hk Hfail Hok. unfold search_and_verify. unfold bind at 1.
  destruct (range_split _ _ Hk) as [post ->].
  assert (Hlen : List.length (range (Z.of_nat k)) = k)
    by (rewrite range_length; apply Nat2Z.id).
  destruct (retry_loop_skip self w query (range (Z.of_nat k)) (Z.of_nat k :: post) false st)
    as (st1 & -> & Hd1 & He1).
  { intros j Hj. apply Hfail. now rewrite Hlen in Hj. }
  rewrite Hlen in *. cbn [retry_loop orb]. unfold bind at 1.
  destruct (search_tracker_effects self w query st1) as (st2 & -> & Hd2 & He2).
  assert (Hn1 : nsearch st1 = (nsearch st + k)%nat) by (destruct He1 as (H & _); exact H).
  rewrite Hn1. unfold attempt_succeeds in Hok. rewrite Hok. cbn [ret].
  pose proof (effects_trans _ _ _ _ _ _ _ _ _ He1 He2) as He12.
  rewrite !app_nil_r in He12.
  replace (k + 1)%nat with (S k) in He12 by lia.
  destruct (5 <? List.length rs)%nat.
  - unfold bind, print, emit, sys_exit. cbn.
    eexists. split; [reflexivity|]. split; [cbn; congruence|].
    exact (effects_then_print _ _ _ _ _ (MsgTooManyResults (List.length rs) query) He12).
  - assert (Hadj : exists st3,
               (if negb (Nat.eqb k 0) then
                  d <- get_delay ;; set_delay (d + 1)%Q ;; print MsgDelayIncreased
                else ret tt) st2 = (Ret tt, st3)
               /\ delay st3 = (if (0 <? k)%nat then (delay st + 1)%Q else delay st)
               /\ effects st2 st3 0 [] []).
    { destruct k as [|k']; cbn.
      - exists st2. split; [reflexivity|]. split; [congruence | apply effects_refl].
      - eexists. split; [reflexivity|]. cbn. split; [congruence|].
        unfold effects; cbn. unfold fetches, sleeps. rewrite !flat_map_app. cbn.
        rewrite !app_nil_r. repeat split; lia. }
    destruct Hadj as (st3 & Hrun3 & Hd3 & He3).
    unfold bind at 1. rewrite Hrun3. unfold bind at 1.
    destruct (results_loop_run w query rs [] false st3) as (st4 & -> & Hd4 & He4).
    assert (Hnf : nfetch st3 = nfetch st).
    { destruct He3 as (_ & H3 & _). destruct He12 as (_ & H12 & _). cbn in *. lia. }
    rewrite Hnf. cbn [orb].
    pose proof (effects_trans _ _ _ _ _ _ _ _ _ He12 He3) as He13.
    pose proof (effects_trans _ _ _ _ _ _ _ _ _ He13 He4) as He14.
    cbn [app] in He14. rewrite !app_nil_r, !Nat.add_0_r in He14.
    destruct verbose.
    + unfold bind.
      destruct (prints_run (verbose_report query ([] ++ map Title rs)
                      (existsb (candidate_matches query) (extracted_names w (nfetch st) rs))) st4)
        as (st5 & -> & Hd5 & He5).
      exists st5. split; [reflexivity|]. split; [congruence|].
      pose proof (effects_trans _ _ _ _ _ _ _ _ _ He14 He5) as H.
      rewrite !app_nil_r, !Nat.add_0_r in H. exact H.
    + unfold bind, ret. exists st4. split; [reflexivity|]. split; [congruence | exact He14].
Qed.

Lemma verify_raises (self : searcher) (w : backend) (query : string) (verbose : bool)
    (st : state) (k : nat) (e : exn) :
  (k < Z.to_nat (max_retries self))%nat ->
  (forall j, (j < k)%nat -> attempt_fails self w query (nsearch st + j)) ->
  search_outcome self query (search_reply_at w (nsearch st + k)) = Raise e ->
  exists st',
    search_and_verify self w query verbose st = (Raise e, st')
    /\ delay st' = delay st
    /\ effects st st' (S k) [] (map (retry_wait (delay st)) (range (Z.of_nat k))).
Proof.
  intros Hk Hfail Hraise. unfold search_and_verify. unfold bind at 1.
  destruct (range_split _ _ Hk) as [post ->].
  assert (Hlen : List.length (range (Z.of_nat k)) = k)
    by (rewrite range_length; apply Nat2Z.id).
  destruct (retry_loop_skip self w query (range (Z.of_nat k)) (Z.of_nat k :: post) false st)
    as (st1 & -> & Hd1 & He1).
  { intros j Hj. apply Hfail. now rewrite Hlen in Hj. }
  rewrite Hlen in *. cbn [retry_loop orb]. unfold bind at 1.
  destruct (search_tracker_effects self w query st1) as (st2 & -> & Hd2 & He2).
  assert (Hn1 : nsearch st1 = (nsearch st + k)%nat) by (destruct He1 as (H & _); exact H).
  rewrite Hn1, Hraise.
  pose proof (effects_trans _ _ _ _ _ _ _ _ _ He1 He2) as He12.
  rewrite !app_nil_r in He12. replace (k + 1)%nat with (S k) in He12 by lia.
  exists st2. split; [reflexivity|]. split; [congruence | exact He12].
Qed.

Lemma attempt_fails_dec (self : searcher) (w : backend) (query : string) (n : nat) :
  {attempt_fails self w query n} + {~ attempt_fails self w query n}.
Proof.
  unfold attempt_fails.
  destruct (search_outcome self query (search_reply_at w n)) as [[rs|]|c|e];
    (now left) || (right; discriminate).
Defined.

(** The attempts of one call: some number [k] of failures, followed by the
    end of the loop or by an attempt that does not fail. *)
Lemma attempts_split (self : searcher) (w : backend) (query : string) (n limit : nat) :
  exists k,
    (k <= limit)%nat
    /\ (forall j, (j < k)%nat -> attempt_fails self w query (n + j))
    /\ (k = limit \/ ((k < limit)%nat /\ ~ attempt_fails self w query (n + k))).
Proof.
  induction limit as [|limit (k & Hle & Hall & Hend)].
  - exists 0%nat. split; [lia|]. split; [intros j Hj; lia | now left].
  - destruct Hend as [-> | [Hlt Hno]].
    + destruct (attempt_fails_dec self w query (n + limit)) as [Hf | Hf].
      * exists (S limit). split; [lia|]. split; [|now left].
        intros j Hj. destruct (Nat.eq_dec j limit) as [-> | Hne]; [exact Hf|].
        apply Hall. lia.
      * exists limit. split; [lia|]. split; [exact Hall|]. right. split; [lia | exact Hf].
    + exists k. split; [lia|]. split; [exact Hall|]. right. split; [lia | exact Hno].
Qed.

(** The attempts of one call go one of three ways. *)
Lemma attempts_cases (self : searcher) (w : backend) (query : string) (n limit : nat) :
  exists k,
    (forall j, (j < k)%nat -> attempt_fails self w query (n + j))
    /\ (k = limit
        \/ ((k < limit)%nat /\ exists rs, attempt_succeeds self w query (n + k) rs)
        \/ ((k < limit)%nat
            /\ exists e, search_outcome self query (search_reply_at w (n + k)) = Raise e)).
Proof.
  destruct (attempts_split self w query n limit) as (k & Hle & Hall & Hend).
  exists k. split; [exact Hall|].
  destruct Hend as [-> | [Hlt Hno]]; [now left | right].
  unfold attempt_fails, attempt_succeeds in *.
  destruct (search_outcome self query (search_reply_at w (n + k))) as [[rs|]|c|e] eqn:E.
  - left. split; [exact Hlt | now exists rs].
  - now contradiction Hno.
  - now destruct (search_outcome_no_exit _ _ _ _ E).
  - right. split; [exact Hlt | now exists e].
Qed.

Lemma Qle_succ (d : Q) : (d <= d + 1)%Q.
Proof.
  rewrite <- (Qplus_0_r d) at 1. apply Qplus_le_compat; [apply Qle_refl | discriminate].
Qed.

(** One call changes the delay by nothing or by one, whatever its outcome. *)
Lemma verify_delay (self : searcher) (w : backend) (query : string) (verbose : bool)
    (st : state) :
  delay (snd (search_and_verify self w query verbose st)) = delay st
  \/ delay (snd (search_and_verify self w query verbose st)) = (delay st + 1)%Q.
Proof.
  destruct (attempts_cases self w query (nsearch st) (Z.to_nat (max_retries self)))
    as (k & Hall & [-> | [[Hlt [rs Hok]] | [Hlt [e He]]]]).
  - destruct (verify_exhausted self w query verbose st Hall) as (st' & -> & Hd & _).
    now left.
  - destruct (verify_success self w query verbose st k rs Hlt Hall Hok) as (st' & -> & Hd & _).
    cbn [snd]. rewrite Hd. destruct (5 <? List.length rs)%nat; [now left|].
    destruct (0 <? k)%nat; [now right | now left].
  - destruct (verify_raises self w query verbose st k e Hlt Hall He) as (st' & -> & Hd & _).
    now left.
Qed.

Lemma verify_all_loop_delay (self : searcher) (w : backend) (verbose : bool) (total : nat)
    (items : list string) :
  forall (i : nat) (found : list string) (st : state),
    (delay st <= delay (snd (verify_all_loop self w verbose total i items found st)))%Q.
Proof.
  induction items as [|item rest IH]; intros i found st.
  - apply Qle_refl.
  - cbn [verify_all_loop]. unfold bind at 1, get_delay at 1. unfold bind at 1.
    set (s1 := snd ((if (1 <? i)%nat && positive (delay st) then sleep (delay st) else ret tt) st)).
    assert (H1 : (if (1 <? i)%nat && positive (delay st) then sleep (delay st) else ret tt) st
                 = (Ret tt, s1) /\ delay s1 = delay st).
    { subst s1. destruct ((1 <? i)%nat && positive (delay st)); now split. }
    destruct H1 as [-> Hd1]. clearbody s1.
    unfold bind at 1, emit at 1. unfold bind at 1.
    match goal with |- context [search_and_verify self w item verbose ?s] => set (s2 := s) end.
    assert (Hd2 : delay s2 = delay st) by (subst s2; exact Hd1). clearbody s2.
    pose proof (verify_delay self w item verbose s2) as Hv.
    destruct (search_and_verify self w item verbose s2) as [[matched|c|e] s3]; cbn [snd] in *.
    + unfold bind at 1, emit at 1.
      match goal with |- context [verify_all_loop _ _ _ _ _ _ _ ?s] => set (s4 := s) end.
      assert (Hd4 : delay s4 = delay s3) by reflexivity. clearbody s4.
      eapply Qle_trans; [|apply IH]. rewrite Hd4.
      destruct Hv as [-> | ->]; rewrite Hd2; [apply Qle_refl | apply Qle_succ].
    + destruct Hv as [-> | ->]; rewrite Hd2; [apply Qle_refl | apply Qle_succ].
    + destruct Hv as [-> | ->]; rewrite Hd2; [apply Qle_refl | apply Qle_succ].
Qed.

Lemma not_found_loop_delay (self : searcher) (w : backend) (verbose : bool)
    (items remaining : list string) :
  forall (not_found : list string) (st : state),
    (delay st <= delay (snd (not_found_loop self w verbose items remaining not_found st)))%Q.
Proof.
  induction remaining as [|item rest IH]; intros not_found st.
  - apply Qle_refl.
  - cbn [not_found_loop]. unfold bind at 1, search_and_verify_all.
    pose proof (verify_all_loop_delay self w verbose (List.length items) items 1 [] st) as Hv.
    destruct (verify_all_loop self w verbose (List.length items) 1 items [] st)
      as [[found|c|e] s1]; cbn [snd] in *; [|exact Hv|exact Hv].
    eapply Qle_trans; [exact Hv | apply IH].
Qed.

End Protocol.

End ScanarrFacts.

(** ** The verification engine *)

Import Scanarr ScanarrFacts Examples.
Local Open Scope scanarr_scope.

Section Claims.
Context {unicode : Unicode}.


(** C5. When the search that ends the retry loop returns more than five
    results (attempt [k] succeeds with [rs] after [k] failed attempts),
    [search_and_verify] ends the process with status 1, and no descriptor has
    been requested: the request counter and the list of requested
    descriptors are those of the start of the call. *)
Theorem too_many_results_abort_before_fetch
    (self : searcher) (w : backend) (query : string) (verbose : bool) (st : state)
    (k : nat) (rs : list search_result) :
  (k < Z.to_nat (max_retries self))%nat ->
  (forall j, (j < k)%nat -> attempt_fails self w query (nsearch st + j)) ->
  attempt_succeeds self w query (nsearch st + k) rs ->
  (5 < List.length rs)%nat ->
  exists st',
    search_and_verify self w query verbose st = (Exit 1, st')
    /\ nfetch st' = nfetch st
    /\ fetches (trace st') = fetches (trace st)
    /\ delay st' = delay st.
Proof.
  intros Hk Hfail Hok Hmany.
  destruct (verify_success self w query verbose st k rs Hk Hfail Hok)
    as (st' & Hrun & Hd & He).
  apply Nat.ltb_lt in Hmany. rewrite Hmany in *.
  exists st'. destruct He as (_ & Hn & Hf & _). cbn in Hn.
  rewrite app_nil_r in Hf. repeat split; try assumption. lia.
Qed.

(** C6. When every one of the [max_retries] attempts fails,
    [search_and_verify] ends the process with status 1 after exactly
    [max_retries] search requests and without requesting any descriptor;
    [max_retries] is 10 for the searcher [main] creates. *)
Theorem exhausted_retries_abort_without_fetch
    (self : searcher) (w : backend) (query : string) (verbose : bool) (st : state) :
  (forall j, (j < Z.to_nat (max_retries self))%nat ->
             attempt_fails self w query (nsearch st + j)) ->
  (exists st',
     search_and_verify self w query verbose st = (Exit 1, st')
     /\ nsearch st' = (nsearch st + Z.to_nat (max_retries self))%nat
     /\ nfetch st' = nfetch st
     /\ fetches (trace st') = fetches (trace st))
  /\ (forall url key trk, max_retries (make_searcher url key trk) = 10%Z).
Proof.
  intros Hfail. split; [|reflexivity].
  destruct (verify_exhausted self w query verbose st Hfail) as (st' & Hrun & _ & He).
  exists st'. destruct He as (Hs & Hn & Hf & _). cbn in Hn. rewrite app_nil_r in Hf.
  repeat split; try assumption. lia.
Qed.




(** C4. A call of [search_and_verify] that returns leaves the delay one
    higher when its first attempt failed (however many retries followed) and
    unchanged when its first attempt succeeded; and no call, batch or run
    ever lowers the delay, whatever its outcome. *)
Theorem delay_grows_by_one_per_retried_call :
  (forall self w query verbose st b st',
      search_and_verify self w query verbose st = (Ret b, st') ->
      (attempt_fails self w query (nsearch st) -> delay st' = (delay st + 1)%Q)
      /\ (~ attempt_fails self w query (nsearch st) -> delay st' = delay st))
  /\ (forall self w query verbose st,
        (delay st <= delay (snd (search_and_verify self w query verbose st)))%Q)
  /\ (forall self w items verbose st,
        (delay st <= delay (snd (search_and_verify_all self w items verbose st)))%Q)
  /\ (forall self w items verbose st,
        (delay st <= delay (snd (main_search self w items verbose st)))%Q).
Proof.
  split; [|split; [|split]].
  - intros self w query verbose st b st' Hrun.
    destruct (attempts_cases self w query (nsearch st) (Z.to_nat (max_retries self)))
      as (k & Hall & [-> | [[Hlt [rs Hok]] | [Hlt [e He]]]]).
    + destruct (verify_exhausted self w query verbose st Hall) as (s & Hs & _).
      congruence.
    + destruct (verify_success self w query verbose st k rs Hlt Hall Hok) as (s & Hs & Hd & _).
      rewrite Hrun in Hs. destruct (5 <? List.length rs)%nat; [discriminate|].
      injection Hs as _ <-. rewrite Hd. unfold attempt_fails, attempt_succeeds in *.
      destruct k as [|k]; cbn [Nat.ltb Nat.leb].
      * rewrite Nat.add_0_r in Hok. split; [congruence | reflexivity].
      * split; [reflexivity|]. intros Hno. contradiction Hno.
        specialize (Hall 0%nat ltac:(lia)). now rewrite Nat.add_0_r in Hall.
    + destruct (verify_raises self w query verbose st k e Hlt Hall He) as (s & Hs & _).
      congruence.
  - intros self w query verbose st.
    destruct (verify_delay self w query verbose st) as [-> | ->];
      [apply Qle_refl | apply Qle_succ].
  - intros self w items verbose st. apply verify_all_loop_delay.
  - intros self w items verbose st. apply not_found_loop_delay.
Qed.

(** The loop over the indexers stops at the first one whose [Error] is
    not empty. *)
Lemma first_error_split (ixs : list indexer) :
  (exists ix e, In ix ixs /\ Error ix = Some e /\ e <> "") ->
  exists before ix e0 after,
    ixs = (before ++ ix :: after)%list
    /\ Forall no_error before
    /\ Error ix = Some e0
    /\ e0 <> ""
    /\ first_error ixs = Some e0.
Proof.
  intros (ix & e & Hin & He & Hne). induction ixs as [|i rest IH]; [contradiction|].
  cbn [first_error]. destruct (Error i) as [ei|] eqn:Ei.
  - destruct (PyStr.truthy ei) eqn:Ti.
    + exists [], i, ei, rest. repeat split; [constructor | exact Ei|].
      now apply PyStrFacts.truthy_spec.
    + assert (Hei : ei = "") by (destruct ei; [reflexivity | discriminate]). subst ei.
      destruct Hin as [-> | Hin]; [congruence|].
      destruct (IH Hin) as (before & ix' & e0 & after & -> & Hb & Hix & Hne0 & Hf).
      exists (i :: before), ix', e0, after.
      repeat split; try assumption. constructor; [now right | exact Hb].
  - destruct Hin as [-> | Hin]; [congruence|].
    destruct (IH Hin) as (before & ix' & e0 & after & -> & Hb & Hix & Hne0 & Hf).
    exists (i :: before), ix', e0, after.
    repeat split; try assumption. constructor; [now left | exact Hb].
Qed.

Lemma first_error_none (ixs : list indexer) : Forall no_error ixs -> first_error ixs = None.
Proof.
  induction 1 as [|i rest Hi _ IH]; [reflexivity|].
  cbn [first_error]. destruct Hi as [-> | ->]; exact IH.
Qed.

(** C8. A search response that passed the status check and in which some
    indexer carries a non-empty [Error] makes [search_tracker] return
    [None], so that the attempt counts as failed: it sends the one request
    and prints one message, chosen by the first non-empty [Error] of the
    list, the rate-limit message when that text contains [TooManyRequests]
    and the other message otherwise; outcome, delay and counters do not
    depend on the choice.  A response in which no indexer reports an error
    makes it return the list under [Results], the empty list included, and
    print nothing. *)
Theorem indexer_error_is_failed_search
    (self : searcher) (w : backend) (query : string) (st : state)
    (status : Z) (js : search_body) (ixs : list indexer) :
  search_reply_at w (nsearch st) = SearchResponse status (Some js) ->
  raise_for_status status = Value tt ->
  Indexers js = Present ixs ->
  (exists ix e, In ix ixs /\ Error ix = Some e /\ e <> "") ->
  (exists before ix e0 after message,
     ixs = (before ++ ix :: after)%list
     /\ Forall no_error before
     /\ Error ix = Some e0
     /\ e0 <> ""
     /\ (PyStr.Substring "TooManyRequests" e0 -> message = MsgTooManyRequests query)
     /\ (~ PyStr.Substring "TooManyRequests" e0 -> message = MsgUnknownError query)
     /\ search_tracker self w query st
        = (Ret None,
           {| delay := delay st; nsearch := S (nsearch st); nfetch := nfetch st;
              trace := (trace st
                        ++ [EGet (search_url self) (search_params self query) 30;
                            EPrint message])%list |}))
  /\ attempt_fails self w query (nsearch st)
  /\ (forall w' st' status' ixs' rs,
        search_reply_at w' (nsearch st')
        = SearchResponse status' (Some {| Indexers := Present ixs'; Results := Present rs |}) ->
        raise_for_status status' = Value tt ->
        Forall no_error ixs' ->
        search_tracker self w' query st'
        = (Ret (Some rs),
           {| delay := delay st'; nsearch := S (nsearch st'); nfetch := nfetch st';
              trace := (trace st'
                        ++ [EGet (search_url self) (search_params self query) 30])%list |}))
  /\ @Ret (option (list search_result)) None <> Ret (Some []).
Proof.
  intros Hreply Hstatus Hix Herr.
  destruct (first_error_split ixs Herr) as (before & ix & e0 & after & Hsplit & Hb & Hix0 & Hne & He0).
  assert (Hrun : search_tracker self w query st
                 = (Ret None,
                    {| delay := delay st; nsearch := S (nsearch st); nfetch := nfetch st;
                       trace := (trace st
                                 ++ [EGet (search_url self) (search_params self query) 30;
                                     EPrint (if PyStr.contains "TooManyRequests" e0
                                             then MsgTooManyRequests query
                                             else MsgUnknownError query)])%list |})).
  { unfold search_tracker, bind, session_get_search, lift. rewrite Hreply, Hstatus.
    cbn. rewrite Hix. cbn. rewrite He0. cbn. rewrite <- app_assoc. reflexivity. }
  split; [|split; [|split]].
  - exists before, ix, e0, after,
      (if PyStr.contains "TooManyRequests" e0
       then MsgTooManyRequests query else MsgUnknownError query).
    repeat split; try assumption.
    + intros Hsub. apply PyStrFacts.contains_spec in Hsub. now rewrite Hsub.
    + intros Hsub. destruct (PyStr.contains "TooManyRequests" e0) eqn:E; [|reflexivity].
      contradiction Hsub. now apply PyStrFacts.contains_spec.
  - unfold attempt_fails. pose proof (search_tracker_run self w query st) as H.
    cbv zeta in H. rewrite Hrun in H. now injection H as <- _.
  - intros w' st' status' ixs' rs Hreply' Hstatus' Hnone.
    unfold search_tracker, bind, session_get_search, lift. rewrite Hreply', Hstatus'.
    cbn. rewrite (first_error_none ixs' Hnone). reflexivity.
  - discriminate.
Qed.


Lemma torrent_name_at_eq (w : backend) (n : nat) (link : option string) (st : state) :
  nfetch st = n -> fst (get_torrent_name w link st) = Ret (torrent_name_at w n link).
Proof.
  intros <-. destruct (get_torrent_name_run w link st) as (st' & -> & _). reflexivity.
Qed.

(** Where the empty name comes from: no link, a request that raises, a
    4xx or 5xx status, a body that is not bencode, a descriptor without
    the path [info.name], or one in which reading the path raises. *)
Lemma torrent_name_empty_sources (w : backend) (n : nat) :
  torrent_name_at w n None = ""
  /\ (forall u e, fetch_reply_at w n = FetchRaised e -> torrent_name_at w n (Some u) = "")
  /\ (forall u status content e,
        fetch_reply_at w n = FetchResponse status content ->
        raise_for_status status = Raised e -> torrent_name_at w n (Some u) = "")
  /\ (forall u status,
        fetch_reply_at w n = FetchResponse status None -> torrent_name_at w n (Some u) = "")
  /\ (forall u status v,
        fetch_reply_at w n = FetchResponse status (Some v) ->
        info_name v = Value None \/ (exists e, info_name v = Raised e) ->
        torrent_name_at w n (Some u) = "")
  /\ (forall d, Bencode.lookup "info" d = None -> info_name (Bencode.Dict d) = Value None)
  /\ (forall d i, Bencode.lookup "info" d = Some (Bencode.Dict i) ->
                  Bencode.lookup "name" i = None ->
                  info_name (Bencode.Dict d) = Value None).
Proof.
  unfold torrent_name_at, get_torrent_name, try_except, session_get_torrent, bind, lift, probe.
  cbn [nfetch]. repeat split.
  - intros u e ->. reflexivity.
  - intros u status content e -> ->. reflexivity.
  - intros u status ->. destruct (raise_for_status status); reflexivity.
  - intros u status v -> [H | [e H]]; destruct (raise_for_status status); cbn; rewrite ?H;
      reflexivity.
  - intros d H. unfold info_name. cbn. now rewrite H.
  - intros d i Hd Hi. unfold info_name. cbn. rewrite Hd. cbn. now rewrite Hi.
Qed.

(** C10. A candidate whose extracted name is empty leaves [found_match] as
    it was: the loop continues with the remaining candidates exactly as if
    the candidate had been absent from the test, for every query.  For the
    empty query the containment test alone would accept the empty name.  In
    general the loop sets [found_match] only for a name that is not empty
    and contains the query; the empty name is what a missing link, a failed
    download, an undecodable body or an absent [info.name] produce. *)
Theorem empty_name_contributes_no_match
    (w : backend) (query : string) (r : search_result) (rest : list search_result)
    (results : list (option string)) (found : bool) (st : state) :
  torrent_name_at w (nfetch st) (Link r) = "" ->
  results_loop w query (r :: rest) results found st
  = results_loop w query rest (results ++ [Title r])%list found
      (snd (get_torrent_name w (Link r) st))
  /\ matches_query "" "" = true
  /\ (forall raw results' found' st',
        fst (results_loop w query raw results' found' st')
        = Ret ((results' ++ map Title raw)%list,
               found' || existsb (fun name => negb (String.eqb name "")
                                              && matches_query name query)
                                 (extracted_names w (nfetch st') raw)))
  /\ (forall n,
        torrent_name_at w n None = ""
        /\ (forall u e, fetch_reply_at w n = FetchRaised e -> torrent_name_at w n (Some u) = "")
        /\ (forall u status content e,
              fetch_reply_at w n = FetchResponse status content ->
              raise_for_status status = Raised e -> torrent_name_at w n (Some u) = "")
        /\ (forall u status,
              fetch_reply_at w n = FetchResponse status None ->
              torrent_name_at w n (Some u) = "")
        /\ (forall u status v,
              fetch_reply_at w n = FetchResponse status (Some v) ->
              info_name v = Value None \/ (exists e, info_name v = Raised e) ->
              torrent_name_at w n (Some u) = "")
        /\ (forall d, Bencode.lookup "info" d = None -> info_name (Bencode.Dict d) = Value None)
        /\ (forall d i, Bencode.lookup "info" d = Some (Bencode.Dict i) ->
                        Bencode.lookup "name" i = None ->
                        info_name (Bencode.Dict d) = Value None)).
Proof.
  intros Hname. split; [|split; [reflexivity | split]].
  - cbn [results_loop]. unfold bind.
    destruct (get_torrent_name_run w (Link r) st) as (st1 & -> & _).
    rewrite Hname. reflexivity.
  - intros raw results' found' st'.
    destruct (results_loop_run w query raw results' found' st') as (s & -> & _).
    cbn [fst]. do 3 f_equal.
    induction (extracted_names w (nfetch st') raw) as [|name names IH]; [reflexivity|].
    cbn [existsb]. rewrite IH. f_equal. unfold candidate_matches. now destruct name.
  - intros n. apply torrent_name_empty_sources.
Qed.



(** A call that returns has ended its retry loop with a successful search
    of at most five results. *)
Lemma verify_returns_after_successful_search
    (self : searcher) (w : backend) (query : string) (verbose : bool)
    (st : state) (b : bool) (st' : state) :
  search_and_verify self w query verbose st = (Ret b, st') ->
  exists (k : nat) (rs : list search_result),
    (k < Z.to_nat (max_retries self))%nat
    /\ (forall j, (j < k)%nat -> attempt_fails self w query (nsearch st + j))
    /\ attempt_succeeds self w query (nsearch st + k) rs
    /\ (List.length rs <= 5)%nat.
Proof.
  intros Hrun.
  destruct (attempts_cases self w query (nsearch st) (Z.to_nat (max_retries self)))
    as (k & Hall & [-> | [[Hlt [rs Hok]] | [Hlt [e He]]]]).
  - destruct (verify_exhausted self w query verbose st Hall) as (s & Hs & _). congruence.
  - destruct (verify_success self w query verbose st k rs Hlt Hall Hok) as (s & Hs & _).
    rewrite Hrun in Hs. destruct (5 <? List.length rs)%nat eqn:E5; [discriminate|].
    apply Nat.ltb_ge in E5. now exists k, rs.
  - destruct (verify_raises self w query verbose st k e Hlt Hall He) as (s & Hs & _). congruence.
Qed.


Example mixed_candidates_all_visited :
  extracted_names mixed_backend 0 mixed_candidates = [""; ""; "show.s01.group"]
  /\ fetches (trace (snd (search_and_verify searcher0 mixed_backend "Show.S01.GROUP" false
                            (initial_state 0))))
     = ["http://l/1"; "http://l/3"].
Proof. split; reflexivity. Qed.

(** An exception of the first search request leaves [search_and_verify]
    at once: no wait, no second request. *)
Lemma first_attempt_exception_propagates
    (self : searcher) (w : backend) (query : string) (verbose : bool) (st : state) (e : exn) :
  (0 < max_retries self)%Z ->
  search_reply_at w (nsearch st) = SearchRaised e ->
  exists st',
    search_and_verify self w query verbose st = (Raise e, st')
    /\ nsearch st' = S (nsearch st)
    /\ sleeps (trace st') = sleeps (trace st).
Proof.
  intros Hmax Hreply.
  destruct (verify_raises self w query verbose st 0 e) as (st' & Hrun & _ & Hn & _ & _ & Hs).
  - lia.
  - intros j Hj. lia.
  - rewrite Nat.add_0_r, Hreply. reflexivity.
  - exists st'. split; [exact Hrun|]. cbn in Hs. rewrite app_nil_r in Hs.
    split; [lia | exact Hs].
Qed.

(** C3.  The code at a search request that times out, and at one answered
    with status 503: the exception leaves [search_and_verify] after a single
    request, without any wait, and ends a whole run; an indexer error, by
    contrast, is retried ten times. *)
Theorem search_exception_is_not_retried :
  search_and_verify searcher0 timeout_backend "Show.S01.GROUP" false (initial_state 0)
  = (Raise Timeout,
     {| delay := 0; nsearch := 1; nfetch := 0;
        trace := [EGet (search_url searcher0) (search_params searcher0 "Show.S01.GROUP") 30] |})
  /\ search_and_verify searcher0 unavailable_backend "Show.S01.GROUP" false (initial_state 0)
     = (Raise (HTTPError 503),
        {| delay := 0; nsearch := 1; nfetch := 0;
           trace := [EGet (search_url searcher0) (search_params searcher0 "Show.S01.GROUP") 30] |})
  /\ fst (main_search searcher0 timeout_backend ["Show.S01.GROUP"; "Other.Release"] false
            (initial_state 0))
     = Raise Timeout
  /\ nsearch (snd (search_and_verify searcher0 failing_backend "Show.S01.GROUP" false
                     (initial_state 0)))
     = 10%nat.
Proof. repeat split. Qed.

(** With a backend on which every search succeeds with no result, a batch
    sends one search per item and a run sends one batch per item. *)
Lemma batch_request_count (self : searcher) (w : backend) (verbose : bool) (total : nat)
    (items : list string) :
  (0 < max_retries self)%Z ->
  (forall q n, attempt_succeeds self w q n []) ->
  forall (i : nat) (found : list string) (st : state),
  exists st',
    verify_all_loop self w verbose total i items found st = (Ret found, st')
    /\ nsearch st' = (nsearch st + List.length items)%nat.
Proof.
  intros Hmax Hquiet. induction items as [|item rest IH]; intros i found st.
  - exists st. split; [reflexivity | cbn; lia].
  - cbn [verify_all_loop]. unfold bind at 1, get_delay at 1. unfold bind at 1.
    set (s1 := snd ((if (1 <? i)%nat && positive (delay st) then sleep (delay st) else ret tt) st)).
    assert (H1 : (if (1 <? i)%nat && positive (delay st) then sleep (delay st) else ret tt) st
                 = (Ret tt, s1) /\ nsearch s1 = nsearch st).
    { subst s1. destruct ((1 <? i)%nat && positive (delay st)); now split. }
    destruct H1 as [-> Hn1]. clearbody s1.
    unfold bind at 1, emit at 1. unfold bind at 1.
    match goal with |- context [search_and_verify self w item verbose ?s] => set (s2 := s) end.
    assert (Hn2 : nsearch s2 = nsearch st) by (subst s2; exact Hn1). clearbody s2.
    destruct (verify_success self w item verbose s2 0 []) as (s3 & -> & _ & Hn3 & _).
    + lia.
    + intros j Hj. lia.
    + apply Hquiet.
    + cbn [Nat.ltb Nat.leb List.length extracted_names existsb].
      unfold bind at 1, emit at 1.
      match goal with |- context [verify_all_loop _ _ _ _ _ _ _ ?s] => set (s4 := s) end.
      assert (Hn4 : nsearch s4 = nsearch s3) by reflexivity. clearbody s4.
      destruct (IH (S i) found s4) as (st' & -> & Hn).
      exists st'. split; [reflexivity|]. cbn [List.length]. lia.
Qed.

Lemma run_request_count (self : searcher) (w : backend) (verbose : bool)
    (items : list string) (st : state) :
  (0 < max_retries self)%Z ->
  (forall q n, attempt_succeeds self w q n []) ->
  exists st',
    main_search self w items verbose st = (Ret items, st')
    /\ nsearch st' = (nsearch st + List.length items * List.length items)%nat.
Proof.
  intros Hmax Hquiet. unfold main_search.
  enough (H : forall remaining not_found s,
             exists s',
               not_found_loop self w verbose items remaining not_found s
               = (Ret (not_found ++ remaining)%list, s')
               /\ nsearch s' = (nsearch s + List.length remaining * List.length items)%nat)
    by exact (H items [] st).
  induction remaining as [|item rest IH]; intros not_found s.
  - exists s. rewrite app_nil_r. split; [reflexivity | cbn; lia].
  - cbn [not_found_loop]. unfold bind at 1, search_and_verify_all.
    destruct (batch_request_count self w verbose (List.length items) items Hmax Hquiet 1 [] s)
      as (s1 & -> & Hn1).
    cbn [member existsb].
    destruct (IH (not_found ++ [item])%list s1) as (s' & -> & Hn).
    exists s'. rewrite <- app_assoc. split; [reflexivity|]. cbn [List.length]. lia.
Qed.

(** C2.  The code on the items [a] and [b], with a backend that finds
    nothing: one run sends the searches [a], [b], [a], [b], so each item is
    verified twice. *)
Theorem main_verifies_each_item_once_per_item :
  fst (main_search searcher0 empty_backend ["a"; "b"] false (initial_state 0))
  = Ret ["a"; "b"]
  /\ map (fun g => param "Query" (snd g))
         (gets (trace (snd (main_search searcher0 empty_backend ["a"; "b"] false
                              (initial_state 0)))))
     = [Some "a"; Some "b"; Some "a"; Some "b"]
  /\ gets (trace (snd (search_and_verify_all searcher0 empty_backend ["a"; "b"] false
                         (initial_state 0))))
     = [(search_url searcher0, search_params searcher0 "a");
        (search_url searcher0, search_params searcher0 "b")].
Proof. repeat split. Qed.

(** The value sent for [Query] is the query encoded twice. *)
Lemma query_wire_value (self : searcher) (query : string) :
  param "Query" (search_params self query) = Some (Url.quote_plus query)
  /\ wire_url (search_url self) (search_params self query)
     = search_url self ++ "?" ++ "apikey=" ++ Url.quote_plus (api_key self)
       ++ "&" ++ "Query=" ++ Url.quote_plus (Url.quote_plus query)
       ++ "&" ++ "Tracker%5B%5D=" ++ Url.quote_plus (Url.quote_plus (tracker self)).
Proof. split; reflexivity. Qed.

(** C9.  The code on the query [a b]: [search_tracker] passes [a+b] as
    [Query], the request line carries [a%2Bb], and the backend decodes that
    to [a+b]; the query encoded once is [a+b], which decodes to [a b]. *)
Theorem query_is_encoded_twice :
  gets (trace (snd (search_tracker searcher0 empty_backend "a b" (initial_state 0))))
  = [("http://127.0.0.1:9117/api/v2.0/indexers/all/results",
      [("apikey", "key"); ("Query", "a+b"); ("Tracker[]", "tracker")])]
  /\ wire_url (search_url searcher0) (search_params searcher0 "a b")
     = "http://127.0.0.1:9117/api/v2.0/indexers/all/results?apikey=key&Query=a%2Bb&Tracker%5B%5D=tracker"
  /\ Url.unquote_plus "a%2Bb" = "a+b"
  /\ Url.quote_plus "a b" = "a+b"
  /\ Url.unquote_plus (Url.quote_plus "a b") = "a b".
Proof. repeat split. Qed.

(** The examples of the specification. *)
Example matching_descriptor_is_found :
  fst (search_and_verify searcher0
         (constant_backend (ok_body [candidate "Show S01" "http://l/1"])
                           (torrent "Show.S01.GROUP-EXTRA"))
         "Show.S01.GROUP" false (initial_state 0))
  = Ret true.
Proof. reflexivity. Qed.

Example other_descriptor_is_not_found :
  fst (search_and_verify searcher0
         (constant_backend (ok_body [candidate "Show S01" "http://l/1"])
                           (torrent "Other.Release"))
         "Show.S01.GROUP" false (initial_state 0))
  = Ret false.
Proof. reflexivity. Qed.

Example no_result_is_not_found :
  search_and_verify searcher0 empty_backend "Show.S01.GROUP" false (initial_state 0)
  = (Ret false,
     {| delay := 0; nsearch := 1; nfetch := 0;
        trace := [EGet (search_url searcher0) (search_params searcher0 "Show.S01.GROUP") 30] |}).
Proof. reflexivity. Qed.

End Claims.

(** The statements above at concrete inputs. *)

Section ClaimsWitnesses.
#[local] Existing Instance ascii_unicode.

Lemma too_many_results_abort_before_fetch_witness :
  (5 < List.length six_candidates)%nat
  /\ exists st',
       search_and_verify searcher0 crowded_backend "Show.S01.GROUP" false (initial_state 0)
       = (Exit 1, st')
       /\ nfetch st' = 0%nat
       /\ fetches (trace st') = []
       /\ delay st' = 0%Q.
Proof.
  split; [cbn; lia|].
  apply (too_many_results_abort_before_fetch searcher0 crowded_backend "Show.S01.GROUP"
           false (initial_state 0) 0 six_candidates).
  - cbn. lia.
  - intros j Hj. lia.
  - reflexivity.
  - cbn. lia.
Defined.

Lemma exhausted_retries_abort_without_fetch_witness :
  (exists st',
     search_and_verify searcher0 failing_backend "Show.S01.GROUP" false (initial_state 0)
     = (Exit 1, st')
     /\ nsearch st' = 10%nat
     /\ nfetch st' = 0%nat
     /\ fetches (trace st') = [])
  /\ (forall url key trk, max_retries (make_searcher url key trk) = 10%Z).
Proof.
  apply (exhausted_retries_abort_without_fetch searcher0 failing_backend "Show.S01.GROUP"
           false (initial_state 0)).
  intros j _. reflexivity.
Defined.


Lemma delay_grows_by_one_per_retried_call_witness :
  attempt_fails searcher0 flaky_backend "Show.S01.GROUP" 0
  /\ fst (search_and_verify searcher0 flaky_backend "Show.S01.GROUP" false (initial_state 0))
     = Ret true
  /\ delay (snd (search_and_verify searcher0 flaky_backend "Show.S01.GROUP" false
                   (initial_state 0)))
     = (0 + 1)%Q.
Proof.
  split; [reflexivity|]. split; [reflexivity|].
  apply (proj1 delay_grows_by_one_per_retried_call searcher0 flaky_backend "Show.S01.GROUP"
           false (initial_state 0) true
           (snd (search_and_verify searcher0 flaky_backend "Show.S01.GROUP" false
                   (initial_state 0)))).
  - reflexivity.
  - reflexivity.
Defined.

Lemma indexer_error_is_failed_search_witness :
  (exists before ix e0 after message,
     [ {| Error := None |}; {| Error := Some "TooManyRequests: slow down" |} ]
     = (before ++ ix :: after)%list
     /\ Forall no_error before
     /\ Error ix = Some e0
     /\ e0 <> ""
     /\ (PyStr.Substring "TooManyRequests" e0 -> message = MsgTooManyRequests "Show.S01.GROUP")
     /\ (~ PyStr.Substring "TooManyRequests" e0 -> message = MsgUnknownError "Show.S01.GROUP")
     /\ search_tracker searcher0
          (constant_backend (error_body "TooManyRequests: slow down") (FetchRaised Timeout))
          "Show.S01.GROUP" (initial_state 0)
        = (Ret None,
           {| delay := 0; nsearch := 1; nfetch := 0;
              trace := [EGet (search_url searcher0) (search_params searcher0 "Show.S01.GROUP") 30;
                        EPrint message] |}))
  /\ attempt_fails searcher0
       (constant_backend (error_body "TooManyRequests: slow down") (FetchRaised Timeout))
       "Show.S01.GROUP" 0
  /\ (forall w' st' status' ixs' rs,
        search_reply_at w' (nsearch st')
        = SearchResponse status' (Some {| Indexers := Present ixs'; Results := Present rs |}) ->
        raise_for_status status' = Value tt ->
        Forall no_error ixs' ->
        search_tracker searcher0 w' "Show.S01.GROUP" st'
        = (Ret (Some rs),
           {| delay := delay st'; nsearch := S (nsearch st'); nfetch := nfetch st';
              trace := (trace st'
                        ++ [EGet (search_url searcher0)
                              (search_params searcher0 "Show.S01.GROUP") 30])%list |}))
  /\ @Ret (option (list search_result)) None <> Ret (Some []).
Proof.
  apply (indexer_error_is_failed_search searcher0
           (constant_backend (error_body "TooManyRequests: slow down") (FetchRaised Timeout))
           "Show.S01.GROUP" (initial_state 0) 200
           {| Indexers := Present [ {| Error := None |};
                                    {| Error := Some "TooManyRequests: slow down" |} ];
              Results := Present [] |}).
  - reflexivity.
  - reflexivity.
  - reflexivity.
  - exists {| Error := Some "TooManyRequests: slow down" |}, "TooManyRequests: slow down".
    split; [right; left; reflexivity|]. split; [reflexivity | discriminate].
Defined.

Lemma empty_name_contributes_no_match_witness :
  torrent_name_at unnamed_backend 0 (Link unnamed_candidate) = ""
  /\ fst (results_loop unnamed_backend "" [unnamed_candidate] [] false (initial_state 0))
     = Ret ([Some "Show S01"], false)
  /\ matches_query "" "" = true.
Proof.
  split; [reflexivity|].
  destruct (empty_name_contributes_no_match unnamed_backend "" unnamed_candidate [] [] false
              (initial_state 0) eq_refl) as (Hstep & Hempty & _).
  split; [|exact Hempty]. rewrite Hstep. reflexivity.
Defined.



End ClaimsWitnesses.

(** ** Group filtering *)

Module GroupsFacts.
Import Groups.

Lemma split_not_nil (sep : ascii) (s : string) : split sep s <> [].
Proof.
  induction s as [|c t IH]; cbn; [discriminate|].
  destruct (Ascii.eqb c sep); [discriminate|]. destruct (split sep t); discriminate.
Qed.

Lemma contains_char_cons (c a : ascii) (t : string) :
  PyStr.contains (String c EmptyString) (String a t)
  = Ascii.eqb c a || PyStr.contains (String c EmptyString) t.
Proof. cbn. now rewrite andb_true_r. Qed.

Lemma split_without_sep (sep : ascii) (s : string) :
  PyStr.contains (String sep EmptyString) s = false -> split sep s = [s].
Proof.
  induction s as [|c t IH]; [reflexivity|].
  rewrite contains_char_cons. intros H. apply orb_false_elim in H as [Hc Ht].
  cbn [split]. rewrite Ascii.eqb_sym, Hc, (IH Ht). reflexivity.
Qed.

Lemma split_at_sep (sep : ascii) (pre rest : string) :
  exists front, front <> [] /\ split sep (pre ++ String sep rest) = (front ++ split sep rest)%list.
Proof.
  induction pre as [|c p (front & Hne & IH)]; cbn [append split].
  - exists [EmptyString]. rewrite Ascii.eqb_refl. split; [discriminate | reflexivity].
  - destruct (Ascii.eqb c sep).
    + exists (EmptyString :: front). rewrite IH. split; [discriminate | reflexivity].
    + rewrite IH. destruct front as [|f fs]; [congruence|].
      exists (String c f :: fs). split; [discriminate | reflexivity].
Qed.

Lemma last_app_nonempty {A : Type} (l l' : list A) (d : A) :
  l' <> [] -> last (l ++ l') d = last l' d.
Proof.
  intros Hne. induction l as [|x l IH]; [reflexivity|].
  cbn [app]. destruct (l ++ l')%list eqn:E.
  - destruct l; [cbn in E; congruence | discriminate].
  - rewrite <- IH. reflexivity.
Qed.

Lemma last_piece_after_sep (sep : ascii) (pre rest : string) :
  last (split sep (pre ++ String sep rest)) EmptyString = last (split sep rest) EmptyString.
Proof.
  destruct (split_at_sep sep pre rest) as (front & _ & ->).
  apply last_app_nonempty, split_not_nil.
Qed.

(** A string that contains the separator splits at its last occurrence. *)
Lemma last_occurrence (sep : ascii) (s : string) :
  PyStr.contains (String sep EmptyString) s = true ->
  exists pre rest,
    s = pre ++ String sep rest /\ PyStr.contains (String sep EmptyString) rest = false.
Proof.
  induction s as [|c t IH]; [discriminate|].
  rewrite contains_char_cons. intros H.
  destruct (PyStr.contains (String sep EmptyString) t) eqn:Ht.
  - destruct (IH eq_refl) as (pre & rest & -> & Hrest).
    exists (String c pre), rest. split; [reflexivity | exact Hrest].
  - rewrite orb_false_r in H. apply Ascii.eqb_eq in H as <-.
    exists EmptyString, t. split; [reflexivity | exact Ht].
Qed.

Lemma contains_sep_app (sep : ascii) (pre rest : string) :
  PyStr.contains (String sep EmptyString) (pre ++ String sep rest) = true.
Proof.
  induction pre as [|c p IH]; cbn [append]; rewrite contains_char_cons.
  - now rewrite Ascii.eqb_refl.
  - rewrite IH. apply orb_true_r.
Qed.

Lemma group_after_last_dash (pre group : string) :
  PyStr.contains "-" group = false ->
  extract_group_name (pre ++ String "-" group) = group.
Proof.
  intros Hg. unfold extract_group_name.
  rewrite (contains_sep_app "-" pre group), last_piece_after_sep.
  now rewrite (split_without_sep "-" group Hg).
Qed.

(** [extract_group_name] returns what follows the last dash of the name,
    and the empty string for a name without a dash; the result never
    contains a dash. *)
Theorem extract_group_name_is_last_dash_suffix (filename : string) :
  PyStr.contains "-" (extract_group_name filename) = false
  /\ (PyStr.contains "-" filename = false -> extract_group_name filename = "")
  /\ (PyStr.contains "-" filename = true ->
      exists pre, filename = pre ++ "-" ++ extract_group_name filename).
Proof.
  destruct (PyStr.contains "-" filename) eqn:Hd.
  - destruct (last_occurrence "-" filename Hd) as (pre & group & -> & Hg).
    rewrite (group_after_last_dash pre group Hg).
    split; [exact Hg|]. split; [discriminate|]. intros _. now exists pre.
  - unfold extract_group_name. rewrite Hd. split; [reflexivity|].
    split; [reflexivity | discriminate].
Qed.

Lemma extract_group_name_is_last_dash_suffix_witness :
  PyStr.contains "-" "Show.S01-x264-GROUP" = true
  /\ extract_group_name "Show.S01-x264-GROUP" = "GROUP"
  /\ exists pre, "Show.S01-x264-GROUP" = pre ++ "-" ++ extract_group_name "Show.S01-x264-GROUP".
Proof.
  split; [reflexivity|]. split; [reflexivity|].
  apply (proj2 (proj2 (extract_group_name_is_last_dash_suffix "Show.S01-x264-GROUP"))).
  reflexivity.
Defined.

Lemma filter_loop_spec (excluded_groups : list string) (items : list string) :
  forall (acc : list string) (n : nat),
    filter_loop items excluded_groups acc n
    = ((acc ++ filter (fun i => negb (excluded excluded_groups i)) items)%list,
       (n + List.length (filter (excluded excluded_groups) items))%nat).
Proof.
  induction items as [|item rest IH]; intros acc n; cbn [filter_loop filter].
  - now rewrite app_nil_r, Nat.add_0_r.
  - unfold excluded at 2 3. fold (excluded excluded_groups item).
    change (Scanarr.member (extract_group_name item) excluded_groups)
      with (excluded excluded_groups item).
    destruct (excluded excluded_groups item); cbn [negb]; rewrite IH.
    + f_equal. cbn [List.length]. lia.
    + now rewrite <- app_assoc.
Qed.

Lemma filter_partition_length {A : Type} (p : A -> bool) (l : list A) :
  (List.length (filter (fun x => negb (p x)) l) + List.length (filter p l))%nat
  = List.length l.
Proof.
  induction l as [|x l IH]; [reflexivity|]. cbn [filter].
  destruct (p x); cbn [negb List.length]; lia.
Qed.

Lemma filter_items_by_group_eq (items excluded_groups : list string) :
  filter_items_by_group items excluded_groups
  = (filter (fun i => negb (excluded excluded_groups i)) items,
     List.length (filter (excluded excluded_groups) items)).
Proof.
  destruct excluded_groups as [|g gs].
  - cbn. f_equal.
    + induction items as [|x l IH]; [reflexivity|]. cbn. now rewrite <- IH.
    + induction items as [|x l IH]; [reflexivity|]. cbn. exact IH.
  - unfold filter_items_by_group. now rewrite filter_loop_spec.
Qed.

(** [filter_items_by_group] keeps, in order, exactly the items whose group
    is not excluded and counts the others: kept and skipped items add up to
    the input.  Without excluded groups nothing is skipped. *)
Theorem filter_items_by_group_partitions (items excluded_groups : list string) :
  filter_items_by_group items excluded_groups
  = (filter (fun i => negb (excluded excluded_groups i)) items,
     List.length (filter (excluded excluded_groups) items))
  /\ (List.length (fst (filter_items_by_group items excluded_groups))
      + snd (filter_items_by_group items excluded_groups))%nat
     = List.length items
  /\ filter_items_by_group items [] = (items, 0%nat).
Proof.
  split; [apply filter_items_by_group_eq|]. split; [|reflexivity].
  rewrite filter_items_by_group_eq. cbn [fst snd]. apply filter_partition_length.
Qed.

End GroupsFacts.

(** ** What the engine records *)

Module ObservationsFacts.
Import Scanarr ScanarrFacts Observations.
Local Open Scope scanarr_scope.

Section Records.
Context {unicode : Unicode}.


Lemma gets_app (a b : list event) : gets (a ++ b) = (gets a ++ gets b)%list.
Proof. apply flat_map_app. Qed.

Lemma fetches_app (a b : list event) : fetches (a ++ b) = (fetches a ++ fetches b)%list.
Proof. apply flat_map_app. Qed.

Lemma extends_refl (P : event -> Prop) (st : state) : extends P st st.
Proof.
  exists []. rewrite app_nil_r. cbn. repeat split; [constructor | lia | lia].
Qed.

Lemma extends_trans (P : event -> Prop) (st st1 st2 : state) :
  extends P st st1 -> extends P st1 st2 -> extends P st st2.
Proof.
  intros (e1 & Ht1 & Hp1 & Hs1 & Hf1) (e2 & Ht2 & Hp2 & Hs2 & Hf2).
  exists (e1 ++ e2)%list. rewrite Ht2, Ht1, <- app_assoc, gets_app, fetches_app, !length_app.
  repeat split; [apply Forall_app; now split | lia | lia].
Qed.

Lemma extends_weaken (P Q : event -> Prop) (st st' : state) :
  (forall e, P e -> Q e) -> extends P st st' -> extends Q st st'.
Proof.
  intros Hpq (evs & Ht & Hp & Hs & Hf). exists evs. repeat split; try assumption.
  eapply Forall_impl; [exact Hpq | exact Hp].
Qed.

Lemma emits_weaken {A : Type} (P Q : event -> Prop) (m : M A) :
  (forall e, P e -> Q e) -> emits P m -> emits Q m.
Proof. intros Hpq Hm st. eapply extends_weaken; [exact Hpq | apply Hm]. Qed.

Lemma emits_ret {A : Type} (P : event -> Prop) (a : A) : emits P (ret a).
Proof. intros st. apply extends_refl. Qed.

Lemma emits_raise {A : Type} (P : event -> Prop) (e : exn) : emits P (@raise A e).
Proof. intros st. apply extends_refl. Qed.

Lemma emits_sys_exit {A : Type} (P : event -> Prop) (c : Z) : emits P (@sys_exit A c).
Proof. intros st. apply extends_refl. Qed.

Lemma emits_lift {A : Type} (P : event -> Prop) (x : except A) : emits P (lift x).
Proof. destruct x; [apply emits_ret | apply emits_raise]. Qed.

Lemma emits_get_delay (P : event -> Prop) : emits P get_delay.
Proof. intros st. apply extends_refl. Qed.

Lemma emits_set_delay (P : event -> Prop) (d : Q) : emits P (set_delay d).
Proof.
  intros st. exists []. cbn. rewrite app_nil_r. repeat split; [constructor | lia | lia].
Qed.

Lemma emits_bind {A B : Type} (P : event -> Prop) (m : M A) (f : A -> M B) :
  emits P m -> (forall a, emits P (f a)) -> emits P (bind m f).
Proof.
  intros Hm Hf st. unfold bind. specialize (Hm st).
  destruct (m st) as [[a|c|e] s1]; cbn [snd] in *; try exact Hm.
  eapply extends_trans; [exact Hm | apply Hf].
Qed.

Lemma emits_try_except {A : Type} (P : event -> Prop) (m : M A) (h : exn -> M A) :
  emits P m -> (forall e, emits P (h e)) -> emits P (try_except m h).
Proof.
  intros Hm Hh st. unfold try_except. specialize (Hm st).
  destruct (m st) as [[a|c|e] s1]; cbn [snd] in *; try exact Hm.
  eapply extends_trans; [exact Hm | apply Hh].
Qed.

Lemma emits_silent (P : event -> Prop) (e : event) :
  P e -> gets [e] = [] -> fetches [e] = [] -> emits P (emit e).
Proof.
  intros He Hg Hf st. exists [e]. cbn [emit snd trace nsearch nfetch].
  rewrite Hg, Hf. cbn. repeat split; [constructor; [exact He | constructor] | lia | lia].
Qed.

Lemma emits_print (P : event -> Prop) (m : message) : P (EPrint m) -> emits P (print m).
Proof. intros H. now apply emits_silent. Qed.

Lemma emits_sleep (P : event -> Prop) (d : Q) : P (ESleep d) -> emits P (sleep d).
Proof. intros H. now apply emits_silent. Qed.

Lemma emits_prints (P : event -> Prop) (ms : list message) :
  (forall m, P (EPrint m)) -> emits P (prints ms).
Proof.
  intros H. induction ms as [|m ms IH]; [apply emits_ret|].
  cbn [prints]. apply emits_bind; [apply emits_print, H | intros _; exact IH].
Qed.

Lemma emits_session_get_search (P : event -> Prop) (w : backend) (url : string)
    (params : list (string * string)) (timeout : Z) :
  P (EGet url params timeout) -> emits P (session_get_search w url params timeout).
Proof.
  intros H st. exists [EGet url params timeout]. cbn.
  repeat split; [constructor; [exact H | constructor] | lia | lia].
Qed.

Lemma emits_session_get_torrent (P : event -> Prop) (w : backend) (link : option string)
    (timeout : Z) :
  (forall u, P (EFetch u timeout)) -> emits P (session_get_torrent w link timeout).
Proof.
  intros H. destruct link as [u|]; [|apply emits_raise].
  intros st. exists [EFetch u timeout]. cbn.
  repeat split; [constructor; [apply H | constructor] | lia | lia].
Qed.

Lemma emits_search_tracker (P : event -> Prop) (self : searcher) (w : backend)
    (query : string) :
  P (EGet (search_url self) (search_params self query) 30) ->
  (forall m, P (EPrint m)) ->
  emits P (search_tracker self w query).
Proof.
  intros Hget Hprint. unfold search_tracker.
  apply emits_bind; [now apply emits_session_get_search|].
  intros [e | status body]; [apply emits_raise|].
  apply emits_bind; [apply emits_lift|]. intros _.
  apply emits_bind; [apply emits_lift|]. intros js.
  apply emits_bind; [apply emits_lift|]. intros ixs.
  destruct (first_error ixs); [|apply emits_ret].
  apply emits_bind; [apply emits_print, Hprint | intros _; apply emits_ret].
Qed.

Lemma emits_get_torrent_name (P : event -> Prop) (w : backend) (link : option string) :
  (forall u, P (EFetch u 30)) ->
  (forall m, P (EPrint m)) ->
  emits P (get_torrent_name w link).
Proof.
  intros Hfetch Hprint. unfold get_torrent_name. apply emits_try_except.
  - apply emits_bind; [now apply emits_session_get_torrent|].
    intros [e | status content]; [apply emits_raise|].
    apply emits_bind; [apply emits_lift|]. intros _.
    apply emits_bind; [apply emits_lift|]. intros v.
    apply emits_bind; [apply emits_lift|]. intros [name|]; apply emits_ret.
  - intros e. apply emits_bind; [apply emits_print, Hprint | intros _; apply emits_ret].
Qed.

Lemma emits_retry_loop (P : event -> Prop) (self : searcher) (w : backend)
    (query : string) (attempts : list Z) :
  P (EGet (search_url self) (search_params self query) 30) ->
  (forall m, P (EPrint m)) ->
  (forall d, P (ESleep d)) ->
  forall had, emits P (retry_loop self w query attempts had).
Proof.
  intros Hget Hprint Hsleep. induction attempts as [|a rest IH]; intros had.
  - apply emits_ret.
  - cbn [retry_loop]. apply emits_bind; [now apply emits_search_tracker|].
    intros [rs|]; [apply emits_ret|].
    apply emits_bind; [apply emits_get_delay|]. intros d.
    apply emits_bind; [apply emits_print, Hprint|]. intros _.
    apply emits_bind; [apply emits_sleep, Hsleep|]. intros _. apply IH.
Qed.

Lemma emits_results_loop (P : event -> Prop) (w : backend) (query : string)
    (raw : list search_result) :
  (forall u, P (EFetch u 30)) ->
  (forall m, P (EPrint m)) ->
  forall results found, emits P (results_loop w query raw results found).
Proof.
  intros Hfetch Hprint. induction raw as [|r rest IH]; intros results found.
  - apply emits_ret.
  - cbn [results_loop]. apply emits_bind; [now apply emits_get_torrent_name|].
    intros name. apply IH.
Qed.

Lemma emits_search_and_verify (P : event -> Prop) (self : searcher) (w : backend)
    (query : string) (verbose : bool) :
  P (EGet (search_url self) (search_params self query) 30) ->
  (forall u, P (EFetch u 30)) ->
  (forall m, P (EPrint m)) ->
  (forall d, P (ESleep d)) ->
  emits P (search_and_verify self w query verbose).
Proof.
  intros Hget Hfetch Hprint Hsleep. unfold search_and_verify.
  apply emits_bind; [now apply emits_retry_loop|].
  intros [[raw|] had].
  - destruct (5 <? List.length raw)%nat.
    + apply emits_bind; [apply emits_print, Hprint | intros _; apply emits_sys_exit].
    + apply emits_bind.
      * destruct had; [|apply emits_ret].
        apply emits_bind; [apply emits_get_delay|]. intros d.
        apply emits_bind; [apply emits_set_delay|]. intros _. apply emits_print, Hprint.
      * intros _. apply emits_bind; [now apply emits_results_loop|].
        intros [results found].
        apply emits_bind; [|intros _; apply emits_ret].
        destruct verbose; [now apply emits_prints | apply emits_ret].
  - apply emits_bind; [apply emits_print, Hprint|]. intros _.
    apply emits_bind; [apply emits_print, Hprint | intros _; apply emits_sys_exit].
Qed.

Lemma call_event_ok (self : searcher) (query : string) :
  call_event self query (EGet (search_url self) (search_params self query) 30)
  /\ (forall u, call_event self query (EFetch u 30))
  /\ (forall m, call_event self query (EPrint m))
  /\ (forall d, call_event self query (ESleep d)).
Proof. cbn. unfold request_of. repeat split. Qed.

Lemma emits_call (self : searcher) (w : backend) (query : string) (verbose : bool) :
  emits (call_event self query) (search_and_verify self w query verbose).
Proof.
  destruct (call_event_ok self query) as (H1 & H2 & H3 & H4).
  now apply emits_search_and_verify.
Qed.

Lemma call_event_in_batch (self : searcher) (items : list string) (item : string)
    (e : event) :
  In item items -> call_event self item e -> batch_event self items e.
Proof.
  intros Hin. destruct e; cbn; try tauto.
  intros [Hreq Ht]. split; [exists item; now split | exact Ht].
Qed.

Lemma batch_event_mono (self : searcher) (items items' : list string) (e : event) :
  (forall x, In x items -> In x items') ->
  batch_event self items e -> batch_event self items' e.
Proof.
  intros Hincl. destruct e; cbn; try tauto.
  intros [(item & Hin & Hreq) Ht]. split; [exists item; split; auto | exact Ht].
Qed.

Lemma emits_verify_all_loop (self : searcher) (w : backend) (verbose : bool)
    (total : nat) (all : list string) (items : list string) :
  (forall x, In x items -> In x all) ->
  forall i found, emits (batch_event self all) (verify_all_loop self w verbose total i items found).
Proof.
  induction items as [|item rest IH]; intros Hincl i found.
  - apply emits_ret.
  - cbn [verify_all_loop].
    apply emits_bind; [apply emits_get_delay|]. intros d.
    apply emits_bind.
    { destruct ((1 <? i)%nat && positive d); [now apply emits_sleep | apply emits_ret]. }
    intros _. apply emits_bind; [now apply emits_silent|]. intros _.
    apply emits_bind.
    { eapply emits_weaken; [|apply emits_call].
      intros e. apply call_event_in_batch, Hincl. now left. }
    intros matched. apply emits_bind; [now apply emits_silent|]. intros _.
    apply IH. intros x Hx. apply Hincl. now right.
Qed.

Lemma emits_not_found_loop (self : searcher) (w : backend) (verbose : bool)
    (items remaining : list string) :
  forall acc, emits (batch_event self items) (not_found_loop self w verbose items remaining acc).
Proof.
  induction remaining as [|item rest IH]; intros acc.
  - apply emits_ret.
  - cbn [not_found_loop]. apply emits_bind.
    + unfold search_and_verify_all. apply emits_verify_all_loop. auto.
    + intros found. apply IH.
Qed.

Lemma emits_main_search (self : searcher) (w : backend) (items : list string)
    (verbose : bool) :
  emits (batch_event self items) (main_search self w items verbose).
Proof. unfold main_search. apply emits_not_found_loop. Qed.

End Records.

End ObservationsFacts.

(** ** Further properties of the verification engine *)

Module EngineFacts.
Import Scanarr ScanarrFacts Observations ObservationsFacts Examples.
Local Open Scope scanarr_scope.

Section Engine.
Context {unicode : Unicode}.


Lemma links_length (raw : list search_result) : (List.length (links raw) <= List.length raw)%nat.
Proof.
  induction raw as [|r rest IH]; [cbn; lia|].
  unfold links in *. cbn [flat_map]. rewrite length_app.
  destruct (Link r); cbn [List.length]; lia.
Qed.

(** The counters after a call, whatever its outcome. *)
Lemma verify_counters (self : searcher) (w : backend) (query : string) (verbose : bool)
    (st : state) :
  (nsearch (snd (search_and_verify self w query verbose st))
   <= nsearch st + Z.to_nat (max_retries self))%nat
  /\ (nfetch (snd (search_and_verify self w query verbose st)) <= nfetch st + 5)%nat.
Proof.
  destruct (attempts_cases self w query (nsearch st) (Z.to_nat (max_retries self)))
    as (k & Hall & [-> | [[Hlt [rs Hok]] | [Hlt [e He]]]]).
  - destruct (verify_exhausted self w query verbose st Hall) as (s & -> & _ & Hs & Hf & _).
    cbn [snd]. cbn in Hf. lia.
  - destruct (verify_success self w query verbose st k rs Hlt Hall Hok)
      as (s & -> & _ & Hs & Hf & _).
    cbn [snd]. destruct (5 <? List.length rs)%nat eqn:E5.
    + cbn in Hf. lia.
    + apply Nat.ltb_ge in E5. pose proof (links_length rs). lia.
  - destruct (verify_raises self w query verbose st k e Hlt Hall He)
      as (s & -> & _ & Hs & Hf & _).
    cbn [snd]. cbn in Hf. lia.
Qed.

(** Whatever its outcome, a call of [search_and_verify] only appends to
    the trace, and what it appends are search requests for its own query at
    the results endpoint, descriptor requests, waits and messages, all
    requests with the 30 second timeout; the two counters of the state
    count exactly the requests appended. *)
Theorem call_records_only_its_own_requests
    (self : searcher) (w : backend) (query : string) (verbose : bool) (st : state) :
  exists evs,
    trace (snd (search_and_verify self w query verbose st)) = (trace st ++ evs)%list
    /\ Forall (call_event self query) evs
    /\ nsearch (snd (search_and_verify self w query verbose st))
       = (nsearch st + List.length (gets evs))%nat
    /\ nfetch (snd (search_and_verify self w query verbose st))
       = (nfetch st + List.length (fetches evs))%nat.
Proof. exact (emits_call self w query verbose st). Qed.

(** Whatever its outcome, a call of [search_and_verify] sends at most
    [max_retries] search requests and at most five descriptor requests. *)
Theorem call_requests_are_bounded
    (self : searcher) (w : backend) (query : string) (verbose : bool) (st : state) :
  exists evs,
    trace (snd (search_and_verify self w query verbose st)) = (trace st ++ evs)%list
    /\ (List.length (gets evs) <= Z.to_nat (max_retries self))%nat
    /\ (List.length (fetches evs) <= 5)%nat.
Proof.
  destruct (emits_call self w query verbose st) as (evs & Ht & _ & Hs & Hf).
  destruct (verify_counters self w query verbose st) as [Hs' Hf'].
  exists evs. split; [exact Ht|]. split; lia.
Qed.

(** Whatever their outcome, a batch and a run only send search requests
    for items of their input. *)
Theorem run_searches_only_its_items
    (self : searcher) (w : backend) (items : list string) (verbose : bool) (st : state) :
  extends (batch_event self items) st (snd (search_and_verify_all self w items verbose st))
  /\ extends (batch_event self items) st (snd (main_search self w items verbose st)).
Proof.
  split; [|apply emits_main_search].
  unfold search_and_verify_all. apply emits_verify_all_loop. auto.
Qed.

(** A search that succeeds with no result makes [search_and_verify] return
    [False] without requesting any descriptor. *)
Theorem no_result_is_no_match
    (self : searcher) (w : backend) (query : string) (verbose : bool) (st : state)
    (k : nat) :
  (k < Z.to_nat (max_retries self))%nat ->
  (forall j, (j < k)%nat -> attempt_fails self w query (nsearch st + j)) ->
  attempt_succeeds self w query (nsearch st + k) [] ->
  exists st',
    search_and_verify self w query verbose st = (Ret false, st')
    /\ nfetch st' = nfetch st
    /\ fetches (trace st') = fetches (trace st)
    /\ nsearch st' = (nsearch st + S k)%nat.
Proof.
  intros Hk Hfail Hok.
  destruct (verify_success self w query verbose st k [] Hk Hfail Hok)
    as (st' & Hrun & _ & Hs & Hn & Hf & _).
  cbn in Hrun, Hn, Hf. rewrite app_nil_r in Hf.
  exists st'. repeat split; try assumption. lia.
Qed.


(** A descriptor that is a dictionary with a dictionary under [info] and
    bytes under [name] there yields those bytes as the name when they are
    valid UTF-8, and the empty name when they are not. *)
Theorem get_torrent_name_reads_info_name
    (w : backend) (u : string) (st : state) (status : Z)
    (d i : list (string * Bencode.value)) (s : string) :
  fetch_reply_at w (nfetch st) = FetchResponse status (Some (Bencode.Dict d)) ->
  raise_for_status status = Value tt ->
  Bencode.lookup "info" d = Some (Bencode.Dict i) ->
  Bencode.lookup "name" i = Some (Bencode.Bytes s) ->
  fst (get_torrent_name w (Some u) st) = Ret (if Utf8.valid s then s else "").
Proof.
  intros Hreply Hstatus Hinfo Hname.
  unfold get_torrent_name, try_except, session_get_torrent, bind, lift.
  rewrite Hreply, Hstatus. cbn. unfold info_name. cbn. rewrite Hinfo. cbn.
  rewrite Hname. cbn. unfold Utf8.decode. destruct (Utf8.valid s); reflexivity.
Qed.

Lemma lower_ascii_idempotent (c : ascii) :
  PyStr.lower_ascii (PyStr.lower_ascii c) = PyStr.lower_ascii c.
Proof. destruct c as [[] [] [] [] [] [] [] []]; reflexivity. Qed.

(** On ASCII text [matches_query] accepts every name in which the query
    occurs, in whatever mix of upper and lower case it is written there;
    and it accepts every name for the empty query. *)
Theorem matches_query_ignores_case_and_context (pre found query post : string) :
  PyStr.is_ascii pre = true ->
  PyStr.is_ascii found = true ->
  PyStr.is_ascii query = true ->
  PyStr.is_ascii post = true ->
  PyStr.lower_bytes found = PyStr.lower_bytes query ->
  matches_query (pre ++ found ++ post) query = true
  /\ (forall name, matches_query name "" = true).
Proof.
  intros Hpre Hfound Hquery Hpost Hsame. unfold matches_query. split.
  - apply PyStrFacts.contains_spec.
    rewrite (PyStrFacts.lower_ascii_text query Hquery).
    rewrite PyStrFacts.lower_ascii_text
      by (now rewrite !PyStrFacts.is_ascii_app, Hpre, Hfound, Hpost).
    rewrite !PyStrFacts.lower_bytes_app, Hsame.
    now exists (PyStr.lower_bytes pre), (PyStr.lower_bytes post).
  - intros name. apply PyStrFacts.contains_spec. now exists "", (PyStr.lower name).
Qed.




Lemma verify_all_loop_cons (self : searcher) (w : backend) (verbose : bool)
    (total i : nat) (item : string) (rest found : list string) (st : state) :
  verify_all_loop self w verbose total i (item :: rest) found st
  = match search_and_verify self w item verbose (snd (before_item total i item st)) with
    | (Ret matched, s) =>
        verify_all_loop self w verbose total (S i) rest
          (if matched then (found ++ [item])%list else found) (snd (after_item s))
    | (Exit c, s) => (Exit c, s)
    | (Raise e, s) => (Raise e, s)
    end.
Proof.
  cbn [verify_all_loop]. unfold before_item, after_item, bind, get_delay.
  destruct ((1 <? i)%nat && positive (delay st)); cbn;
    match goal with |- context [search_and_verify self w item verbose ?s] =>
      destruct (search_and_verify self w item verbose s) as [[matched|c|e] s3] end;
    reflexivity.
Qed.

Lemma before_item_quiet (total i : nat) (item : string) (st : state) :
  gets (trace (snd (before_item total i item st))) = gets (trace st)
  /\ nsearch (snd (before_item total i item st)) = nsearch st.
Proof.
  unfold before_item, bind, get_delay.
  destruct ((1 <? i)%nat && positive (delay st)); cbn; rewrite !gets_app; cbn;
    rewrite ?app_nil_r; now split.
Qed.

Lemma subsequence_refl {A : Type} (l : list A) : Subsequence l l.
Proof. induction l; constructor; assumption. Qed.

Lemma subsequence_nil {A : Type} (l : list A) : Subsequence [] l.
Proof. induction l; constructor; assumption. Qed.

Lemma verify_all_loop_subsequence (self : searcher) (w : backend) (verbose : bool)
    (total : nat) (items : list string) :
  forall (i : nat) (found : list string) (st : state) (found' : list string) (st' : state),
    verify_all_loop self w verbose total i items found st = (Ret found', st') ->
    exists kept, Subsequence kept items /\ found' = (found ++ kept)%list.
Proof.
  induction items as [|item rest IH]; intros i found st found' st' Hrun.
  - cbn in Hrun. injection Hrun as <- _. exists []. rewrite app_nil_r.
    split; [constructor | reflexivity].
  - rewrite verify_all_loop_cons in Hrun.
    destruct (search_and_verify self w item verbose (snd (before_item total i item st)))
      as [[matched|c|e] s]; try discriminate.
    destruct (IH _ _ _ _ _ Hrun) as (kept & Hsub & ->).
    destruct matched.
    + exists (item :: kept). rewrite <- app_assoc. split; [now constructor | reflexivity].
    + exists kept. split; [now constructor | reflexivity].
Qed.

Lemma not_found_loop_subsequence (self : searcher) (w : backend) (verbose : bool)
    (items remaining : list string) :
  forall (acc : list string) (st : state) (not_found : list string) (st' : state),
    not_found_loop self w verbose items remaining acc st = (Ret not_found, st') ->
    exists kept, Subsequence kept remaining /\ not_found = (acc ++ kept)%list.
Proof.
  induction remaining as [|item rest IH]; intros acc st not_found st' Hrun.
  - cbn in Hrun. injection Hrun as <- _. exists []. rewrite app_nil_r.
    split; [constructor | reflexivity].
  - cbn [not_found_loop] in Hrun. unfold bind at 1 in Hrun.
    destruct (search_and_verify_all self w items verbose st) as [[found|c|e] s];
      try discriminate.
    destruct (IH _ _ _ _ Hrun) as (kept & Hsub & ->).
    destruct (member item found).
    + exists kept. split; [now constructor | reflexivity].
    + exists (item :: kept). rewrite <- app_assoc. split; [now constructor | reflexivity].
Qed.

(** What a batch returns as found, and what a run returns as not found,
    are items of the input in the order of the input: nothing is added,
    reordered or repeated. *)
Theorem results_are_subsequences_of_the_input
    (self : searcher) (w : backend) (items : list string) (verbose : bool) :
  (forall st found st',
      search_and_verify_all self w items verbose st = (Ret found, st') ->
      Subsequence found items)
  /\ (forall st not_found st',
        main_search self w items verbose st = (Ret not_found, st') ->
        Subsequence not_found items).
Proof.
  split.
  - intros st found st' Hrun. unfold search_and_verify_all in Hrun.
    destruct (verify_all_loop_subsequence _ _ _ _ _ _ _ _ _ _ Hrun) as (kept & Hsub & ->).
    exact Hsub.
  - intros st not_found st' Hrun. unfold main_search in Hrun.
    destruct (not_found_loop_subsequence _ _ _ _ _ _ _ _ _ Hrun) as (kept & Hsub & ->).
    exact Hsub.
Qed.

Lemma gets_call_events (self : searcher) (query : string) (evs : list event) :
  Forall (call_event self query) evs ->
  gets evs = repeat (request_of self query) (List.length (gets evs)).
Proof.
  induction 1 as [|e evs He _ IH]; [reflexivity|].
  destruct e; cbn in *; try exact IH.
  destruct He as [He _]. rewrite He. f_equal. exact IH.
Qed.

Lemma call_requests (self : searcher) (w : backend) (query : string) (verbose : bool)
    (st : state) :
  exists n,
    (n <= Z.to_nat (max_retries self))%nat
    /\ gets (trace (snd (search_and_verify self w query verbose st)))
       = (gets (trace st) ++ repeat (request_of self query) n)%list.
Proof.
  destruct (emits_call self w query verbose st) as (evs & Ht & Hp & Hs & _).
  destruct (verify_counters self w query verbose st) as [Hs' _].
  exists (List.length (gets evs)). split; [lia|].
  rewrite Ht, gets_app. f_equal. now apply gets_call_events.
Qed.

Lemma batch_loop_requests (self : searcher) (w : backend) (verbose : bool) (total : nat)
    (items : list string) :
  forall (i : nat) (found : list string) (st : state),
  exists counts,
    (List.length counts <= List.length items)%nat
    /\ Forall (fun c => (c <= Z.to_nat (max_retries self))%nat) counts
    /\ gets (trace (snd (verify_all_loop self w verbose total i items found st)))
       = (gets (trace st)
          ++ flat_map (fun qc => repeat (request_of self (fst qc)) (snd qc))
                      (combine items counts))%list.
Proof.
  induction items as [|item rest IH]; intros i found st.
  - exists []. cbn. rewrite app_nil_r. repeat split; [lia | constructor].
  - rewrite verify_all_loop_cons.
    destruct (call_requests self w item verbose (snd (before_item total i item st)))
      as (n & Hn & Hg).
    destruct (before_item_quiet total i item st) as [Hb _]. rewrite Hb in Hg.
    destruct (search_and_verify self w item verbose (snd (before_item total i item st)))
      as [[matched|c|e] s]; cbn [snd] in *.
    + destruct (IH (S i) (if matched then (found ++ [item])%list else found)
                   (snd (after_item s))) as (counts & Hlen & Hall & Hgets).
      exists (n :: counts). split; [cbn; lia|]. split; [now constructor|].
      rewrite Hgets. unfold after_item, emit. cbn [snd trace combine flat_map fst].
      rewrite gets_app, Hg. cbn [gets flat_map]. rewrite <- !app_assoc. reflexivity.
    + exists [n]. split; [cbn; lia|]. split; [now repeat constructor|].
      rewrite Hg. cbn [combine flat_map fst snd]. rewrite combine_nil. cbn [flat_map].
      now rewrite app_nil_r.
    + exists [n]. split; [cbn; lia|]. split; [now repeat constructor|].
      rewrite Hg. cbn [combine flat_map fst snd]. rewrite combine_nil. cbn [flat_map].
      now rewrite app_nil_r.
Qed.

(** Whatever its outcome, a batch sends its search requests in the order
    of its input: some requests for the first item, then some for the
    second, and so on, at most [max_retries] for each, and none for an item
    once the batch has moved past it. *)
Theorem batch_requests_follow_input_order
    (self : searcher) (w : backend) (items : list string) (verbose : bool) (st : state) :
  exists counts,
    (List.length counts <= List.length items)%nat
    /\ Forall (fun c => (c <= Z.to_nat (max_retries self))%nat) counts
    /\ gets (trace (snd (search_and_verify_all self w items verbose st)))
       = (gets (trace st)
          ++ flat_map (fun qc => repeat (request_of self (fst qc)) (snd qc))
                      (combine items counts))%list.
Proof. unfold search_and_verify_all. apply batch_loop_requests. Qed.

Lemma before_item_delay (total i : nat) (item : string) (st : state) :
  delay (snd (before_item total i item st)) = delay st.
Proof.
  unfold before_item, bind, get_delay.
  destruct ((1 <? i)%nat && positive (delay st)); reflexivity.
Qed.

Lemma batch_loop_delay_bound (self : searcher) (w : backend) (verbose : bool) (total : nat)
    (items : list string) :
  forall (i : nat) (found : list string) (st : state),
    (delay (snd (verify_all_loop self w verbose total i items found st))
     <= delay st + inject_Z (Z.of_nat (List.length items)))%Q.
Proof.
  induction items as [|item rest IH]; intros i found st.
  - cbn. rewrite Qplus_0_r. apply Qle_refl.
  - rewrite verify_all_loop_cons.
    pose proof (verify_delay self w item verbose (snd (before_item total i item st))) as Hv.
    rewrite before_item_delay in Hv.
    assert (Hstep : (delay st + 1 + inject_Z (Z.of_nat (List.length rest))
                     == delay st + inject_Z (Z.of_nat (List.length (item :: rest))))%Q).
    { cbn [List.length]. rewrite Nat2Z.inj_succ. unfold Z.succ. rewrite inject_Z_plus.
      change (inject_Z 1) with 1%Q. ring. }
    assert (Hnn : (0 <= inject_Z (Z.of_nat (List.length rest)))%Q).
    { change 0%Q with (inject_Z 0). rewrite <- Zle_Qle. lia. }
    destruct (search_and_verify self w item verbose (snd (before_item total i item st)))
      as [[matched|c|e] s]; cbn [snd] in *.
    + eapply Qle_trans; [apply IH|]. unfold after_item, emit. cbn [snd delay].
      rewrite <- Hstep. apply Qplus_le_compat; [|apply Qle_refl].
      destruct Hv as [-> | ->]; [apply Qle_succ | apply Qle_refl].
    + rewrite <- Hstep.
      destruct Hv as [-> | ->].
      * rewrite <- (Qplus_0_r (delay st)) at 1. rewrite <- Qplus_assoc.
        apply Qplus_le_compat; [apply Qle_refl|].
        rewrite <- (Qplus_0_r 0). apply Qplus_le_compat; [discriminate | exact Hnn].
      * rewrite <- (Qplus_0_r (delay st + 1)) at 1.
        apply Qplus_le_compat; [apply Qle_refl | exact Hnn].
    + rewrite <- Hstep.
      destruct Hv as [-> | ->].
      * rewrite <- (Qplus_0_r (delay st)) at 1. rewrite <- Qplus_assoc.
        apply Qplus_le_compat; [apply Qle_refl|].
        rewrite <- (Qplus_0_r 0). apply Qplus_le_compat; [discriminate | exact Hnn].
      * rewrite <- (Qplus_0_r (delay st + 1)) at 1.
        apply Qplus_le_compat; [apply Qle_refl | exact Hnn].
Qed.

(** Whatever its outcome, a batch raises the delay by at most one second
    per item. *)
Theorem batch_delay_grows_at_most_one_per_item
    (self : searcher) (w : backend) (items : list string) (verbose : bool) (st : state) :
  (delay (snd (search_and_verify_all self w items verbose st))
   <= delay st + inject_Z (Z.of_nat (List.length items)))%Q.
Proof. unfold search_and_verify_all. apply batch_loop_delay_bound. Qed.

End Engine.

(** The statements above at concrete inputs. *)

Section EngineWitnesses.
#[local] Existing Instance ascii_unicode.

Lemma no_result_is_no_match_witness :
  attempt_succeeds searcher0 empty_backend "Show.S01.GROUP" 0 []
  /\ exists st',
       search_and_verify searcher0 empty_backend "Show.S01.GROUP" true (initial_state 0)
       = (Ret false, st')
       /\ nfetch st' = 0%nat
       /\ fetches (trace st') = []
       /\ nsearch st' = 1%nat.
Proof.
  split; [reflexivity|].
  apply (no_result_is_no_match searcher0 empty_backend "Show.S01.GROUP" true
           (initial_state 0) 0).
  - cbn. lia.
  - intros j Hj. lia.
  - reflexivity.
Defined.

Lemma get_torrent_name_reads_info_name_witness :
  fst (get_torrent_name flaky_backend (Some "http://l/1") (initial_state 0))
  = Ret (if Utf8.valid "Show.S01.GROUP-EXTRA" then "Show.S01.GROUP-EXTRA" else "").
Proof.
  apply (get_torrent_name_reads_info_name flaky_backend "http://l/1" (initial_state 0) 200
           [ ("announce", Bencode.Bytes "http://t/announce");
             ("info", Bencode.Dict [ ("length", Bencode.Int 1);
                                     ("name", Bencode.Bytes "Show.S01.GROUP-EXTRA") ]) ]
           [ ("length", Bencode.Int 1); ("name", Bencode.Bytes "Show.S01.GROUP-EXTRA") ]
           "Show.S01.GROUP-EXTRA"); reflexivity.
Defined.

Lemma matches_query_ignores_case_and_context_witness :
  PyStr.lower_bytes "SHOW.s01" = PyStr.lower_bytes "Show.S01"
  /\ matches_query ("The." ++ "SHOW.s01" ++ "-GRP") "Show.S01" = true
  /\ (forall name, matches_query name "" = true).
Proof.
  split; [reflexivity|].
  apply (matches_query_ignores_case_and_context "The." "SHOW.s01" "Show.S01" "-GRP");
    reflexivity.
Defined.


Lemma results_are_subsequences_of_the_input_witness :
  Subsequence
    ["Show.S01.GROUP"]
    ["Other.Release"; "Show.S01.GROUP"].
Proof.
  apply (proj1 (results_are_subsequences_of_the_input searcher0
                  {| search_reply_at := fun _ => ok_body [candidate "Show S01" "http://l/1"];
                     fetch_reply_at := fun _ => torrent "Show.S01.GROUP-EXTRA" |}
                  ["Other.Release"; "Show.S01.GROUP"] false)
               (initial_state 0) ["Show.S01.GROUP"]
               (snd (search_and_verify_all searcher0
                       {| search_reply_at := fun _ => ok_body [candidate "Show S01" "http://l/1"];
                          fetch_reply_at := fun _ => torrent "Show.S01.GROUP-EXTRA" |}
                       ["Other.Release"; "Show.S01.GROUP"] false (initial_state 0)))).
  reflexivity.
Defined.

End EngineWitnesses.

End EngineFacts.

(** ** The query on the wire *)

Module WireFacts.
Import Scanarr Wire.

Lemma replace_char_app (a b : ascii) (s t : string) :
  PyStr.replace_char a b (s ++ t) = PyStr.replace_char a b s ++ PyStr.replace_char a b t.
Proof. induction s as [|c s IH]; [reflexivity|]. cbn. now rewrite IH. Qed.

Lemma quote_byte_with_space (c : ascii) :
  PyStr.replace_char " " "+"
    (if Url.always_safe c || PyStr.contains (String c EmptyString) " "
     then String c EmptyString else Url.percent c)
  = encode_byte c.
Proof. destruct c as [[] [] [] [] [] [] [] []]; reflexivity. Qed.

Lemma quote_byte_without_space (c : ascii) :
  Ascii.eqb " " c = false ->
  (if Url.always_safe c || PyStr.contains (String c EmptyString) ""
   then String c EmptyString else Url.percent c)
  = encode_byte c.
Proof. destruct c as [[] [] [] [] [] [] [] []]; intros H; first [reflexivity | discriminate]. Qed.

Lemma quote_with_space (s : string) :
  PyStr.replace_char " " "+" (Url.quote " " s) = encode s.
Proof.
  induction s as [|c s IH]; [reflexivity|].
  cbn [Url.quote encode]. now rewrite replace_char_app, quote_byte_with_space, IH.
Qed.

Lemma quote_without_space (s : string) :
  PyStr.contains " " s = false -> Url.quote "" s = encode s.
Proof.
  induction s as [|c s IH]; [reflexivity|].
  rewrite GroupsFacts.contains_char_cons. intros H. apply orb_false_elim in H as [Hc Hs].
  cbn [Url.quote encode]. now rewrite quote_byte_without_space, IH.
Qed.

(** [quote_plus] works byte by byte. *)
Lemma quote_plus_encode (s : string) : Url.quote_plus s = encode s.
Proof.
  unfold Url.quote_plus. destruct (PyStr.contains " " s) eqn:H.
  - apply quote_with_space.
  - now apply quote_without_space.
Qed.

Lemma unquote_byte (c : ascii) (rest : string) :
  Url.unquote_plus (encode_byte c ++ rest) = String c (Url.unquote_plus rest).
Proof. destruct c as [[] [] [] [] [] [] [] []]; reflexivity. Qed.

(** Decoding undoes one encoding. *)
Lemma unquote_quote_plus (s : string) : Url.unquote_plus (Url.quote_plus s) = s.
Proof.
  rewrite quote_plus_encode. induction s as [|c s IH]; [reflexivity|].
  cbn [encode]. now rewrite unquote_byte, IH.
Qed.

Lemma length_append (s t : string) :
  String.length (s ++ t) = (String.length s + String.length t)%nat.
Proof. induction s as [|c s IH]; [reflexivity|]. cbn. now rewrite IH. Qed.

Lemma encode_length (s : string) : (String.length s <= String.length (encode s))%nat.
Proof.
  induction s as [|c s IH]; [cbn; lia|].
  cbn [encode]. rewrite length_append. cbn [String.length].
  assert (1 <= String.length (encode_byte c))%nat
    by (destruct c as [[] [] [] [] [] [] [] []]; cbn; lia).
  lia.
Qed.

Lemma encode_safe (s : string) : all_safe s = true -> encode s = s.
Proof.
  induction s as [|c s IH]; [reflexivity|].
  cbn [all_safe encode]. intros H. apply andb_prop in H as [Hc Hs].
  unfold encode_byte. rewrite Hc, (IH Hs). reflexivity.
Qed.

Lemma encode_fixed (s : string) : encode s = s -> all_safe s = true.
Proof.
  induction s as [|c s IH]; [reflexivity|].
  cbn [all_safe encode]. unfold encode_byte.
  destruct (Url.always_safe c) eqn:Hc.
  - cbn. intros H. injection H as H. now apply IH.
  - destruct (Ascii.eqb c " ") eqn:Hs.
    + apply Ascii.eqb_eq in Hs as ->. cbn. discriminate.
    + unfold Url.percent. cbn [append]. intros H. injection H as _ H.
      pose proof (encode_length s) as Hl. rewrite <- H in Hl at 1.
      cbn [String.length] in Hl. lia.
Qed.

(** For every query, [search_tracker] passes [quote_plus(query)] as
    [Query]; the encoding applied to the parameters encodes that value
    again, so that the backend, decoding once, reads [quote_plus(query)].
    It reads the query itself exactly when the query consists of letters,
    digits and the characters [_.-~] only. *)
Theorem backend_reads_query_iff_safe (self : searcher) (query : string) :
  exists sent,
    param "Query" (search_params self query) = Some sent
    /\ Url.urlencode [("Query", sent)] = "Query=" ++ Url.quote_plus sent
    /\ Url.unquote_plus (Url.quote_plus sent) = Url.quote_plus query
    /\ (Url.unquote_plus (Url.quote_plus sent) = query <-> all_safe query = true).
Proof.
  exists (Url.quote_plus query). split; [reflexivity|]. split; [reflexivity|].
  rewrite unquote_quote_plus. split; [reflexivity|].
  rewrite quote_plus_encode. split; [apply encode_fixed | apply encode_safe].
Qed.

End WireFacts.

(** ** Sample and proof detection, labels *)

Module FilesFacts.
Import Files.

Section Detection.
Context {unicode : Unicode}.


Lemma member_In (x : string) (l : list string) : Scanarr.member x l = true <-> In x l.
Proof.
  unfold Scanarr.member. rewrite existsb_exists. split.
  - intros (y & Hin & Heq). apply String.eqb_eq in Heq as ->. exact Hin.
  - intros Hin. exists x. split; [exact Hin | apply String.eqb_refl].
Qed.

Lemma size_in_range (size : Z) :
  ((min_size <=? size) && (size <=? max_size))%Z = true
  <-> (1048576 <= size <= 115343360)%Z.
Proof.
  rewrite andb_true_iff, !Z.leb_le. change min_size with 1048576%Z.
  change max_size with 115343360%Z. tauto.
Qed.

Lemma sample_among_spec (fs : filesystem) (root : string) (files : list string) :
  sample_among fs root files = true
  <-> exists file, In file files /\ is_sample fs root file.
Proof.
  induction files as [|file rest IH]; cbn [sample_among].
  - split; [discriminate | intros (f & [] & _)].
  - destruct (Scanarr.member (file_ext file) media_extensions) eqn:Hext; cbn [negb].
    + destruct (getsize fs (join root file)) as [size|] eqn:Hsize.
      * destruct ((min_size <=? size) && (size <=? max_size))%Z eqn:Hrange.
        -- split; [intros _ | reflexivity]. exists file. split; [now left|].
           split; [now apply member_In|]. exists size. split; [exact Hsize|].
           now apply size_in_range.
        -- rewrite IH. split.
           ++ intros (f & Hin & Hs). exists f. split; [now right | exact Hs].
           ++ intros (f & [<- | Hin] & Hs); [|now exists f].
              destruct Hs as (_ & sz & Hsz & Hr). rewrite Hsize in Hsz.
              injection Hsz as <-. apply size_in_range in Hr. congruence.
      * rewrite IH. split.
        -- intros (f & Hin & Hs). exists f. split; [now right | exact Hs].
        -- intros (f & [<- | Hin] & Hs); [|now exists f].
           destruct Hs as (_ & sz & Hsz & _). congruence.
    + rewrite IH. split.
      * intros (f & Hin & Hs). exists f. split; [now right | exact Hs].
      * intros (f & [<- | Hin] & Hs); [|now exists f].
        destruct Hs as (Hm & _). apply member_In in Hm. congruence.
Qed.

Lemma sample_in_walk_spec (fs : filesystem)
    (entries : list (string * list string * list string)) :
  sample_in_walk fs entries = true
  <-> exists root dirs files file,
        In (root, dirs, files) entries /\ In file files /\ is_sample fs root file.
Proof.
  induction entries as [|[[root dirs] files] rest IH]; cbn [sample_in_walk].
  - split; [discriminate | intros (r & d & f & x & [] & _)].
  - destruct (sample_among fs root files) eqn:Hs.
    + split; [intros _ | reflexivity].
      apply sample_among_spec in Hs as (file & Hin & Hsample).
      exists root, dirs, files, file. split; [now left | now split].
    + rewrite IH. split.
      * intros (r & d & f & x & Hin & Hx). exists r, d, f, x. split; [now right | exact Hx].
      * intros (r & d & f & x & [Heq | Hin] & Hx & Hsample); [|now exists r, d, f, x].
        injection Heq as <- <- <-.
        assert (sample_among fs root files = true)
          by (apply sample_among_spec; now exists x).
        congruence.
Qed.

(** [has_sample_files] answers yes exactly when the walk of the folder
    meets a file with a media extension (compared without regard to case)
    whose size can be read and lies between 1 MiB and 110 MiB, both
    included; files whose size cannot be read are passed over, and a yes is
    never accompanied by a warning. *)
Theorem has_sample_files_iff (fs : filesystem) (folder_path : string) :
  (fst (has_sample_files fs folder_path) = true
   <-> exists root dirs files file,
         In (root, dirs, files) (fst (walk fs folder_path))
         /\ In file files /\ is_sample fs root file)
  /\ (fst (has_sample_files fs folder_path) = true ->
      snd (has_sample_files fs folder_path) = []).
Proof.
  unfold has_sample_files. destruct (walk fs folder_path) as [entries fails]. cbn [fst].
  rewrite <- sample_in_walk_spec.
  destruct (sample_in_walk fs entries); [now split|].
  destruct fails; cbn; split; try tauto; discriminate.
Qed.

Lemma proof_among_spec (files : list string) :
  proof_among files = true <-> exists file, In file files /\ is_proof_image file.
Proof.
  induction files as [|file rest IH]; cbn [proof_among].
  - split; [discriminate | intros (f & [] & _)].
  - destruct (Scanarr.member (file_ext file) image_extensions) eqn:Hext; cbn [negb].
    + destruct (PyStr.contains "proof" (PyStr.lower file)) eqn:Hp.
      * split; [intros _ | reflexivity]. exists file. split; [now left|].
        split; [now apply member_In | now apply PyStrFacts.contains_spec].
      * rewrite IH. split.
        -- intros (f & Hin & Hs). exists f. split; [now right | exact Hs].
        -- intros (f & [<- | Hin] & Hs); [|now exists f].
           destruct Hs as (_ & Hsub). apply PyStrFacts.contains_spec in Hsub. congruence.
    + rewrite IH. split.
      * intros (f & Hin & Hs). exists f. split; [now right | exact Hs].
      * intros (f & [<- | Hin] & Hs); [|now exists f].
        destruct Hs as (Hm & _). apply member_In in Hm. congruence.
Qed.

Lemma proof_in_walk_spec (entries : list (string * list string * list string)) :
  proof_in_walk entries = true
  <-> exists root dirs files file,
        In (root, dirs, files) entries /\ In file files /\ is_proof_image file.
Proof.
  induction entries as [|[[root dirs] files] rest IH]; cbn [proof_in_walk].
  - split; [discriminate | intros (r & d & f & x & [] & _)].
  - destruct (proof_among files) eqn:Hs.
    + split; [intros _ | reflexivity].
      apply proof_among_spec in Hs as (file & Hin & Hproof).
      exists root, dirs, files, file. split; [now left | now split].
    + rewrite IH. split.
      * intros (r & d & f & x & Hin & Hx). exists r, d, f, x. split; [now right | exact Hx].
      * intros (r & d & f & x & [Heq | Hin] & Hx & Hproof); [|now exists r, d, f, x].
        injection Heq as <- <- <-.
        assert (proof_among files = true) by (apply proof_among_spec; now exists x).
        congruence.
Qed.

(** [has_proof_images] answers yes exactly when the walk of the folder
    meets a file with an image extension whose name contains [proof], both
    compared without regard to case; a yes is never accompanied by a
    warning. *)
Theorem has_proof_images_iff (fs : filesystem) (folder_path : string) :
  (fst (has_proof_images fs folder_path) = true
   <-> exists root dirs files file,
         In (root, dirs, files) (fst (walk fs folder_path))
         /\ In file files /\ is_proof_image file)
  /\ (fst (has_proof_images fs folder_path) = true ->
      snd (has_proof_images fs folder_path) = []).
Proof.
  unfold has_proof_images. destruct (walk fs folder_path) as [entries fails]. cbn [fst].
  rewrite <- proof_in_walk_spec.
  destruct (proof_in_walk entries); [now split|].
  destruct fails; cbn; split; try tauto; discriminate.
Qed.

End Detection.

(** The statements above at concrete inputs. *)

Section DetectionWitnesses.
#[local] Existing Instance Examples.ascii_unicode.

Lemma has_sample_files_iff_witness :
  is_sample FileExamples.demo_fs "/data/Show.S01-GROUP/Sample" "sample.MKV"
  /\ fst (has_sample_files FileExamples.demo_fs "/data/Show.S01-GROUP") = true.
Proof.
  assert (Hs : is_sample FileExamples.demo_fs "/data/Show.S01-GROUP/Sample" "sample.MKV").
  { split; [cbn; tauto|]. exists 52428800%Z. split; [reflexivity | lia]. }
  split; [exact Hs|].
  apply (proj1 (has_sample_files_iff FileExamples.demo_fs "/data/Show.S01-GROUP")).
  exists "/data/Show.S01-GROUP/Sample", [], ["sample.MKV"; "unreadable.mkv"], "sample.MKV".
  split; [right; left; reflexivity|]. split; [left; reflexivity | exact Hs].
Defined.

Lemma has_proof_images_iff_witness :
  is_proof_image "Proof.JPG"
  /\ fst (has_proof_images FileExamples.demo_fs "/data/Show.S01-GROUP") = true.
Proof.
  assert (Hp : is_proof_image "Proof.JPG").
  { split; [cbn; tauto|]. exists "", ".jpg". reflexivity. }
  split; [exact Hp|].
  apply (proj1 (has_proof_images_iff FileExamples.demo_fs "/data/Show.S01-GROUP")).
  exists "/data/Show.S01-GROUP", ["Sample"], ["show.mkv"; "Proof.JPG"], "Proof.JPG".
  split; [left; reflexivity|]. split; [right; left; reflexivity | exact Hp].
Defined.

End DetectionWitnesses.

End FilesFacts.

Module LabelsFacts.
Import Files FilesFacts.

Section Labels.
Context {unicode : Unicode}.


Lemma dict_get_set (key k : string) (value default : bool) (d : dict) :
  dict_get k (dict_set key value d) default
  = if String.eqb key k then value else dict_get k d default.
Proof.
  induction d as [|[k0 v0] rest IH]; cbn [dict_set dict_get].
  - reflexivity.
  - destruct (String.eqb k0 key) eqn:E0; cbn [dict_get].
    + apply String.eqb_eq in E0 as ->. now destruct (String.eqb key k).
    + rewrite IH. destruct (String.eqb k0 k) eqn:E1; [|reflexivity].
      apply String.eqb_eq in E1 as ->. now rewrite String.eqb_sym, E0.
Qed.

(** After the loop every item of the list has its own entry. *)
Lemma indicators_loop_get (fs : filesystem)
    (has : filesystem -> string -> bool * list warning) (base : string)
    (items : list string) :
  forall (result : dict) (out : list warning) (k : string),
    dict_get k (fst (indicators_loop fs has base items result out)) false
    = if Scanarr.member k items
      then isdir fs (join base k) && fst (has fs (join base k))
      else dict_get k result false.
Proof.
  induction items as [|item rest IH]; intros result out k; [reflexivity|].
  cbn [indicators_loop Scanarr.member existsb].
  fold (Scanarr.member k rest).
  destruct (isdir fs (join base item)) eqn:Hdir.
  - destruct (has fs (join base item)) as [flag printed] eqn:Hhas.
    rewrite IH, dict_get_set, (String.eqb_sym item k).
    destruct (Scanarr.member k rest); [now rewrite orb_true_r|].
    rewrite orb_false_r. destruct (String.eqb k item) eqn:E; [|reflexivity].
    apply String.eqb_eq in E as ->. now rewrite Hdir, Hhas.
  - rewrite IH, dict_get_set, (String.eqb_sym item k).
    destruct (Scanarr.member k rest); [now rewrite orb_true_r|].
    rewrite orb_false_r. destruct (String.eqb k item) eqn:E; [|reflexivity].
    apply String.eqb_eq in E as ->. now rewrite Hdir.
Qed.

Lemma labelled_loop_spec (fs : filesystem) (base : string) (sd pd : dict)
    (items : list string) :
  (forall item, In item items ->
     dict_get item sd false
     = isdir fs (join base item) && fst (has_sample_files fs (join base item))
     /\ dict_get item pd false
        = isdir fs (join base item) && fst (has_proof_images fs (join base item))) ->
  forall acc,
    labelled_loop fs base sd pd items acc = (acc ++ map (label_of fs base) items)%list.
Proof.
  induction items as [|item rest IH]; intros Hd acc; cbn [labelled_loop map].
  - now rewrite app_nil_r.
  - destruct (Hd item (or_introl eq_refl)) as [Hs Hp].
    rewrite IH by (intros x Hx; apply Hd; now right).
    rewrite <- app_assoc. unfold label_of. now rewrite Hs, Hp.
Qed.

(** [get_labelled_items] returns one record per item, in order: the flags
    of a folder are the answers of [has_sample_files] and
    [has_proof_images] for it, those of anything else are false, the
    display name is the item with [(S)], [(P)] or [(SP)] in front when a
    flag is set, and [original_name] is the item.  The look-ups in the two
    dictionaries never fall back on their default. *)
Theorem get_labelled_items_labels_each_item
    (fs : filesystem) (items : list string) (base_directory : string) :
  fst (get_labelled_items fs items base_directory) = map (label_of fs base_directory) items
  /\ map original_name (fst (get_labelled_items fs items base_directory)) = items
  /\ (forall info, In info (fst (get_labelled_items fs items base_directory)) ->
        is_folder info = false ->
        name info = original_name info /\ has_samples info = false /\ has_proof info = false).
Proof.
  assert (H : fst (get_labelled_items fs items base_directory)
              = map (label_of fs base_directory) items).
  { unfold get_labelled_items, get_sample_indicators, get_proof_indicators.
    pose proof (indicators_loop_get fs has_sample_files base_directory items [] []) as Hs.
    pose proof (indicators_loop_get fs has_proof_images base_directory items [] []) as Hp.
    destruct (indicators_loop fs has_sample_files base_directory items [] []) as [sd o1].
    destruct (indicators_loop fs has_proof_images base_directory items [] []) as [pd o2].
    cbn [fst] in *. rewrite labelled_loop_spec; [reflexivity|].
    intros item Hin. apply member_In in Hin. now rewrite Hs, Hp, Hin. }
  rewrite H. split; [reflexivity|]. split.
  - rewrite map_map. cbn. apply map_id.
  - intros info Hin Hfolder. apply in_map_iff in Hin as (item & <- & _).
    unfold label_of in *. cbn in *. rewrite Hfolder. cbn. repeat split.
Qed.

End Labels.

(** The statements above at concrete inputs. *)

Section LabelsWitnesses.
#[local] Existing Instance Examples.ascii_unicode.

Lemma get_labelled_items_labels_each_item_witness :
  fst (get_labelled_items FileExamples.demo_fs ["Show.S01-GROUP"; "notes.txt"] "/data")
  = [ {| name := "(SP) Show.S01-GROUP"; original_name := "Show.S01-GROUP";
         is_folder := true; has_samples := true; has_proof := true |};
      {| name := "notes.txt"; original_name := "notes.txt";
         is_folder := false; has_samples := false; has_proof := false |} ].
Proof.
  rewrite (proj1 (get_labelled_items_labels_each_item FileExamples.demo_fs
                    ["Show.S01-GROUP"; "notes.txt"] "/data")).
  reflexivity.
Defined.

End LabelsWitnesses.

End LabelsFacts.

(** ** The program *)

Module MainFacts.
Import Scanarr ScanarrFacts Observations ObservationsFacts Groups GroupsFacts Files Main.

Section Program.
Context {unicode : Unicode}.


Lemma subsequence_length {A : Type} (l l' : list A) :
  Subsequence l l' -> (List.length l <= List.length l')%nat.
Proof. induction 1; cbn; lia. Qed.

(** When the input directory is not a directory, or cannot be listed,
    [main] ends the process with status 1 before the searcher has sent or
    recorded anything. *)
Theorem main_rejects_bad_directory (args : arguments) (fs : filesystem) (w : backend) :
  isdir fs (input_dir args) = false \/ listdir fs (input_dir args) = None ->
  exists said,
    main args fs w = (said, (Exit 1, initial_state (arg_delay args)))
    /\ (isdir fs (input_dir args) = false -> said = [SayNotADirectory (input_dir args)])
    /\ (isdir fs (input_dir args) = true ->
        exists before, said = (before ++ [SayReadError (input_dir args)])%list).
Proof.
  intros H. unfold main. destruct (isdir fs (input_dir args)) eqn:Hdir; cbn [negb].
  - destruct H as [H | H]; [discriminate|].
    unfold get_files_and_folders. rewrite H.
    eexists. split; [reflexivity|]. split; [discriminate|]. intros _. eexists. reflexivity.
  - eexists. split; [reflexivity|]. split; [reflexivity | discriminate].
Qed.

(** Whatever happens, the search requests of a run of [main] are requests
    for entries of the input directory whose group is not excluded. *)
Theorem main_searches_only_kept_items (args : arguments) (fs : filesystem) (w : backend) :
  extends
    (batch_event (make_searcher (arg_api_url args) (arg_api_key args) (arg_tracker args))
                 (searched_items args fs))
    (initial_state (arg_delay args))
    (snd (snd (main args fs w)))
  /\ (forall item, In item (searched_items args fs) ->
        excluded (exclude_groups args) item = false
        /\ exists all_items, listdir fs (input_dir args) = Some all_items /\ In item all_items).
Proof.
  split.
  - unfold main, searched_items, get_files_and_folders.
    destruct (isdir fs (input_dir args)); cbn [negb]; [|apply extends_refl].
    destruct (listdir fs (input_dir args)) as [all_items|]; [|apply extends_refl].
    rewrite filter_items_by_group_eq.
    pose proof (emits_main_search
                  (make_searcher (arg_api_url args) (arg_api_key args) (arg_tracker args)) w
                  (filter (fun item => negb (excluded (exclude_groups args) item)) all_items)
                  (arg_verbose args) (initial_state (arg_delay args))) as H.
    destruct (main_search _ w _ (arg_verbose args) (initial_state (arg_delay args)))
      as [[not_found|c|e] st]; exact H.
  - unfold searched_items. intros item Hin.
    destruct (listdir fs (input_dir args)) as [all_items|]; [|contradiction].
    apply filter_In in Hin as [Hin Hex]. split; [now apply negb_true_iff|].
    now exists all_items.
Qed.

(** A run of [main] that returns closes with figures that add up: the
    entries are those checked plus those skipped, and what is reported as
    found is what was checked minus what was not found, a number between
    zero and the number checked. *)
Theorem main_figures_add_up
    (args : arguments) (fs : filesystem) (w : backend) (said : list output) (st : state) :
  main args fs w = (said, (Ret tt, st)) ->
  exists all_items not_found before,
    listdir fs (input_dir args) = Some all_items
    /\ said = (before
               ++ figures all_items (searched_items args fs) not_found
                    (List.length all_items - List.length (searched_items args fs)))%list
    /\ Subsequence not_found (searched_items args fs)
    /\ (List.length (searched_items args fs) <= List.length all_items)%nat
    /\ (0 <= Z.of_nat (List.length (searched_items args fs))
             - Z.of_nat (List.length not_found)
         <= Z.of_nat (List.length (searched_items args fs)))%Z.
Proof.
  unfold main, searched_items, get_files_and_folders.
  destruct (isdir fs (input_dir args)); cbn [negb]; [|discriminate].
  destruct (listdir fs (input_dir args)) as [all_items|]; [|discriminate].
  cbv beta iota. rewrite filter_items_by_group_eq.
  set (items := filter (fun item => negb (excluded (exclude_groups args) item)) all_items).
  destruct (main_search _ w items (arg_verbose args) (initial_state (arg_delay args)))
    as [[not_found|c|e] s] eqn:Hrun; try discriminate.
  intros H. injection H as <- <-.
  unfold main_search in Hrun.
  destruct (EngineFacts.not_found_loop_subsequence _ _ _ _ _ _ _ _ _ Hrun) as (kept & Hsub & ->).
  change ([] ++ kept)%list with kept in *.
  pose proof (subsequence_length _ _ Hsub) as Hlen.
  pose proof (filter_partition_length (excluded (exclude_groups args)) all_items) as Hpart.
  fold items in Hpart.
  exists all_items, kept.
  replace (List.length all_items - List.length items)%nat
    with (List.length (filter (excluded (exclude_groups args)) all_items)) by lia.
  eexists. split; [reflexivity|]. split.
  - repeat (rewrite app_comm_cons || rewrite app_assoc). reflexivity.
  - split; [exact Hsub|]. split; lia.
Qed.

Lemma spaces_length (n : nat) : String.length (spaces n) = n.
Proof. unfold spaces. induction n as [|n IH]; [reflexivity|]. cbn. now rewrite IH. Qed.

Lemma ljust_length (s : string) (width : nat) :
  (String.length s <= width)%nat -> String.length (ljust s width) = width.
Proof.
  intros H. unfold ljust. rewrite WireFacts.length_append, spaces_length. lia.
Qed.

Lemma widest_label_bounds (labelled_items : list item_info) :
  forall acc,
    (acc <= widest_label labelled_items acc)%nat
    /\ (forall info label, In info labelled_items -> record_label info = Some label ->
          (String.length label <= widest_label labelled_items acc)%nat).
Proof.
  induction labelled_items as [|i rest IH]; intros acc; cbn [widest_label].
  - split; [lia | intros info label []].
  - destruct (record_label i) as [l|] eqn:Hl.
    + destruct (IH (Nat.max acc (String.length l))) as [Hacc Hall]. split; [lia|].
      intros info label [<- | Hin] Hlabel; [|exact (Hall info label Hin Hlabel)].
      rewrite Hl in Hlabel. injection Hlabel as <-. lia.
    + destruct (IH acc) as [Hacc Hall]. split; [exact Hacc|].
      intros info label [<- | Hin] Hlabel; [congruence | exact (Hall info label Hin Hlabel)].
Qed.

(** In the list of items not found every line gives the label the same
    room: a label is padded to the width of the widest label of the list,
    and a line without label starts with that many blanks and one more, or
    with none when no item of the list has a label. *)
Theorem report_lines_share_one_column (labelled_items : list item_info) (info : item_info) :
  In info labelled_items ->
  match record_label info with
  | Some label =>
      exists field,
        report_line (widest_label labelled_items 0) info
        = "  [yellow]" ++ field ++ "[/yellow] " ++ original_name info
        /\ String.length field = widest_label labelled_items 0
        /\ PyStr.startswith label field = true
  | None =>
      exists padding,
        report_line (widest_label labelled_items 0) info
        = "  " ++ padding ++ original_name info
        /\ String.length padding
           = (if (0 <? widest_label labelled_items 0)%nat
              then widest_label labelled_items 0 + 1 else 0)%nat
  end.
Proof.
  intros Hin. unfold report_line. destruct (record_label info) as [label|] eqn:Hl.
  - exists (ljust label (widest_label labelled_items 0)). split; [reflexivity|]. split.
    + apply ljust_length. exact (proj2 (widest_label_bounds labelled_items 0) info label Hin Hl).
    + apply PyStrFacts.startswith_spec. unfold ljust. eexists. reflexivity.
  - destruct (0 <? widest_label labelled_items 0)%nat.
    + eexists. split; [reflexivity | apply spaces_length].
    + exists "". split; reflexivity.
Qed.

(** Paths and extensions on concrete names. *)
Example splitext_examples :
  splitext "a.mkv" = ("a", ".mkv")
  /\ splitext ".bashrc" = (".bashrc", "")
  /\ splitext "archive.tar.gz" = ("archive.tar", ".gz")
  /\ splitext "dir.d/.hidden" = ("dir.d/.hidden", "")
  /\ splitext "..x.y" = ("..x", ".y")
  /\ splitext "noext" = ("noext", "")
  /\ file_ext "Sample.MKV" = ".mkv".
Proof. repeat split. Qed.

Example join_examples :
  join "/data" "x" = "/data/x"
  /\ join "/data/" "x" = "/data/x"
  /\ join "" "x" = "x"
  /\ join "/data" "/abs" = "/abs".
Proof. repeat split. Qed.

End Program.

(** The statements above at concrete inputs. *)

Section ProgramWitnesses.
#[local] Existing Instance Examples.ascii_unicode.

Lemma main_searches_only_kept_items_witness :
  In "Show.S01-GROUP" (searched_items FileExamples.demo_args FileExamples.demo_fs)
  /\ excluded ["NOGRP"] "Show.S01-GROUP" = false
  /\ ~ In "Movie.2020-NOGRP" (searched_items FileExamples.demo_args FileExamples.demo_fs).
Proof.
  assert (Hin : In "Show.S01-GROUP" (searched_items FileExamples.demo_args FileExamples.demo_fs))
    by (left; reflexivity).
  split; [exact Hin|]. split.
  - exact (proj1 (proj2 (main_searches_only_kept_items FileExamples.demo_args
                           FileExamples.demo_fs Examples.empty_backend)
                    "Show.S01-GROUP" Hin)).
  - intros H.
    pose proof (proj1 (proj2 (main_searches_only_kept_items FileExamples.demo_args
                                FileExamples.demo_fs Examples.empty_backend)
                         "Movie.2020-NOGRP" H)) as Hex.
    discriminate Hex.
Defined.

Lemma main_rejects_bad_directory_witness :
  isdir FileExamples.demo_fs "/nowhere" = false
  /\ exists said,
       main FileExamples.missing_args FileExamples.demo_fs Examples.empty_backend
       = (said, (Exit 1, initial_state 0))
       /\ (isdir FileExamples.demo_fs "/nowhere" = false -> said = [SayNotADirectory "/nowhere"])
       /\ (isdir FileExamples.demo_fs "/nowhere" = true ->
           exists before, said = (before ++ [SayReadError "/nowhere"])%list).
Proof.
  split; [reflexivity|].
  apply (main_rejects_bad_directory FileExamples.missing_args FileExamples.demo_fs
           Examples.empty_backend).
  left. reflexivity.
Defined.

Lemma main_figures_add_up_witness :
  main FileExamples.demo_args FileExamples.demo_fs Examples.empty_backend
  = (fst (main FileExamples.demo_args FileExamples.demo_fs Examples.empty_backend),
     (Ret tt,
      snd (snd (main FileExamples.demo_args FileExamples.demo_fs Examples.empty_backend))))
  /\ exists all_items not_found before,
       listdir FileExamples.demo_fs "/data" = Some all_items
       /\ fst (main FileExamples.demo_args FileExamples.demo_fs Examples.empty_backend)
          = (before
             ++ figures all_items (searched_items FileExamples.demo_args FileExamples.demo_fs)
                  not_found
                  (List.length all_items
                   - List.length (searched_items FileExamples.demo_args FileExamples.demo_fs)))%list
       /\ Subsequence not_found (searched_items FileExamples.demo_args FileExamples.demo_fs)
       /\ (List.length (searched_items FileExamples.demo_args FileExamples.demo_fs)
           <= List.length all_items)%nat
       /\ (0 <= Z.of_nat (List.length (searched_items FileExamples.demo_args
                                         FileExamples.demo_fs))
                - Z.of_nat (List.length not_found)
            <= Z.of_nat (List.length (searched_items FileExamples.demo_args
                                        FileExamples.demo_fs)))%Z.
Proof.
  split; [reflexivity|].
  apply (main_figures_add_up FileExamples.demo_args FileExamples.demo_fs
           Examples.empty_backend
           (fst (main FileExamples.demo_args FileExamples.demo_fs Examples.empty_backend))
           (snd (snd (main FileExamples.demo_args FileExamples.demo_fs
                        Examples.empty_backend)))).
  reflexivity.
Defined.

Lemma report_lines_share_one_column_witness :
  exists padding,
    report_line
      (widest_label (fst (get_labelled_items FileExamples.demo_fs
                            ["Show.S01-GROUP"; "notes.txt"] "/data")) 0)
      (label_of FileExamples.demo_fs "/data" "notes.txt")
    = "  " ++ padding ++ "notes.txt"
    /\ String.length padding = 5%nat.
Proof.
  apply (report_lines_share_one_column
           (fst (get_labelled_items FileExamples.demo_fs ["Show.S01-GROUP"; "notes.txt"] "/data"))
           (label_of FileExamples.demo_fs "/data" "notes.txt")).
  right. left. reflexivity.
Defined.

End ProgramWitnesses.

End MainFacts.
